(** * pedidos_shameless: a shallow embedding of the storefront

    The development follows the TypeScript sources:

    - [src/db/queries.ts]: [createSession], [getProducts], the
      [SPANISH_PROVINCE_CODES] table, [getProvinceCode], [createOrder];
    - the cart form ([OrderForm]): [handleSubmit], [addToCart],
      [removeFromCart], [updateQuantity];
    - [src/app/components/AddressAutocomplete.tsx]:
      [loadGoogleMapsScript] and [handlePlaceChanged].

    JavaScript strings are sequences of UTF-16 code units, numbers that
    the code only counts with are integers, [undefined] is [None], and an
    exception is the [Threw] case of [outcome]. *)

From Stdlib Require Import List ZArith NArith String Ascii Bool Lia.
Import ListNotations.

Set Warnings "-register-all".
Local Open Scope list_scope.

(** ** JavaScript values *)

Module JS.

(** A string is its sequence of UTF-16 code units. *)
Definition code_unit := N.
Definition jsstring := list code_unit.

(** An ASCII literal of the source. *)
Definition lit (s : string) : jsstring :=
  map N_of_ascii (list_ascii_of_string s).
Arguments lit s%_string.

(** [a === b] on strings. *)
Fixpoint str_eqb (a b : jsstring) : bool :=
  match a, b with
  | [], [] => true
  | x :: a', y :: b' => N.eqb x y && str_eqb a' b'
  | _, _ => false
  end.

(** Truthiness of a string: only the empty string is falsy. *)
Definition str_truthy (s : jsstring) : bool :=
  match s with [] => false | _ :: _ => true end.

(** [s || d] for a string [s]. *)
Definition str_or (s d : jsstring) : jsstring :=
  if str_truthy s then s else d.

(** [xs.join(sep)]. *)
Fixpoint join (sep : jsstring) (xs : list jsstring) : jsstring :=
  match xs with
  | [] => []
  | [x] => x
  | x :: rest => x ++ sep ++ join sep rest
  end.

(** A value produced by [JSON.parse]. An object keeps its properties in
    insertion order; a property is looked up by its first occurrence.
    A number is kept as an integer: the code only tests numbers for
    truthiness and against zero. *)
Inductive json : Type :=
| JNull
| JBool (b : bool)
| JNum (z : Z)
| JStr (s : jsstring)
| JArr (items : list json)
| JObj (fields : list (jsstring * json)).

(** What a function does: it returns or it throws. *)
Inductive exn : Type :=
| MissingConfig          (* Error("Missing Shopify access token or shop URL") *)
| HttpError (status : Z) (* Error(`HTTP error! status: ${status}`) *)
| GraphQLFailed          (* Error("GraphQL query failed") *)
| TypeError              (* raised by the runtime *)
| SyntaxError            (* response.json() on a body that is not JSON *)
| FetchFailed.           (* fetch() rejected: no response at all *)

Inductive outcome (A : Type) : Type :=
| Returned (a : A)
| Threw (e : exn).
Arguments Returned {A} a.
Arguments Threw {A} e.

(** Sequencing: a throw skips the rest. *)
Definition and_then {A B} (o : outcome A) (k : A -> outcome B) : outcome B :=
  match o with
  | Returned a => k a
  | Threw e => Threw e
  end.

(** The parts of the JavaScript runtime that the code calls and does not
    define. [normalizeNFD] is [String.prototype.normalize("NFD")],
    [toUpperCase] is [String.prototype.toUpperCase], and
    [coerced_gt_zero v] is the result of [v > 0] for a string, an array or
    an object [v] ([None] when the conversion to a primitive throws). *)
Class Runtime : Type := {
  normalizeNFD : jsstring -> jsstring;
  toUpperCase : jsstring -> jsstring;
  coerced_gt_zero : json -> option bool
}.

(** The Unicode character database restricted to the code units below
    U+0100, which is where the province table lives: the canonical
    decomposition of one Latin-1 code unit. *)
Definition nfd_unit (c : code_unit) : jsstring :=
  match c with
  | 0xC0 => [0x41; 0x300] | 0xC1 => [0x41; 0x301] | 0xC2 => [0x41; 0x302]
  | 0xC3 => [0x41; 0x303] | 0xC4 => [0x41; 0x308] | 0xC5 => [0x41; 0x30A]
  | 0xC7 => [0x43; 0x327] | 0xC8 => [0x45; 0x300] | 0xC9 => [0x45; 0x301]
  | 0xCA => [0x45; 0x302] | 0xCB => [0x45; 0x308] | 0xCC => [0x49; 0x300]
  | 0xCD => [0x49; 0x301] | 0xCE => [0x49; 0x302] | 0xCF => [0x49; 0x308]
  | 0xD1 => [0x4E; 0x303] | 0xD2 => [0x4F; 0x300] | 0xD3 => [0x4F; 0x301]
  | 0xD4 => [0x4F; 0x302] | 0xD5 => [0x4F; 0x303] | 0xD6 => [0x4F; 0x308]
  | 0xD9 => [0x55; 0x300] | 0xDA => [0x55; 0x301] | 0xDB => [0x55; 0x302]
  | 0xDC => [0x55; 0x308] | 0xDD => [0x59; 0x301] | 0xE0 => [0x61; 0x300]
  | 0xE1 => [0x61; 0x301] | 0xE2 => [0x61; 0x302] | 0xE3 => [0x61; 0x303]
  | 0xE4 => [0x61; 0x308] | 0xE5 => [0x61; 0x30A] | 0xE7 => [0x63; 0x327]
  | 0xE8 => [0x65; 0x300] | 0xE9 => [0x65; 0x301] | 0xEA => [0x65; 0x302]
  | 0xEB => [0x65; 0x308] | 0xEC => [0x69; 0x300] | 0xED => [0x69; 0x301]
  | 0xEE => [0x69; 0x302] | 0xEF => [0x69; 0x308] | 0xF1 => [0x6E; 0x303]
  | 0xF2 => [0x6F; 0x300] | 0xF3 => [0x6F; 0x301] | 0xF4 => [0x6F; 0x302]
  | 0xF5 => [0x6F; 0x303] | 0xF6 => [0x6F; 0x308] | 0xF9 => [0x75; 0x300]
  | 0xFA => [0x75; 0x301] | 0xFB => [0x75; 0x302] | 0xFC => [0x75; 0x308]
  | 0xFD => [0x79; 0x301] | 0xFF => [0x79; 0x308]
  | _ => [c]
  end%N.

(** Upper-case mapping of one Latin-1 code unit (a-z, the accented
    letters, and the three special cases: the micro sign, the sharp s and
    y with diaeresis). *)
Definition upper_unit (c : code_unit) : jsstring :=
  (if (0x61 <=? c) && (c <=? 0x7A) then [c - 0x20]
   else if c =? 0xB5 then [0x39C]
   else if c =? 0xDF then [0x53; 0x53]
   else if c =? 0xF7 then [c]
   else if c =? 0xFF then [0x178]
   else if (0xE0 <=? c) && (c <=? 0xFE) then [c - 0x20]
   else [c])%N.

Definition nfd_latin1 (s : jsstring) : jsstring := flat_map nfd_unit s.
Definition upper_latin1 (s : jsstring) : jsstring := flat_map upper_unit s.

(** A string all of whose code units are below U+0100. *)
Definition latin1 (s : jsstring) : Prop := Forall (fun c => (c < 256)%N) s.

(** [latin1], decided by running over the string. *)
Definition latin1b (s : jsstring) : bool := forallb (fun c => (c <? 256)%N) s.

(** The runtime agrees with the Unicode tables on Latin-1 strings. *)
Definition unicode_on_latin1 (R : Runtime) : Prop :=
  (forall s, latin1 s -> normalizeNFD s = nfd_latin1 s) /\
  (forall s, latin1 s -> toUpperCase s = upper_latin1 s).

(** A runtime that is the Unicode tables on Latin-1; its comparison of a
    non-primitive with zero is never reached by the examples below. *)
Definition latin1_runtime : Runtime := {|
  normalizeNFD := nfd_latin1;
  toUpperCase := upper_latin1;
  coerced_gt_zero := fun _ => Some false
|}.

(** *** Reading parsed JSON *)

(** The own property [k] of an object literal. *)
Fixpoint own (fields : list (jsstring * json)) (k : jsstring) : option json :=
  match fields with
  | [] => None
  | (k', v) :: rest => if str_eqb k' k then Some v else own rest k
  end.

(** [v.k] for a [v] that is neither [null] nor [undefined], and a name [k]
    that is neither an array index nor inherited from a prototype (the
    names read here are errors, data, orderCreate, userErrors, order and
    length). *)
Definition prop (v : json) (k : jsstring) : option json :=
  match v with
  | JObj fields => own fields k
  | JArr items =>
      if str_eqb k (lit "length") then Some (JNum (Z.of_nat (List.length items)))
      else None
  | JStr s =>
      if str_eqb k (lit "length") then Some (JNum (Z.of_nat (List.length s)))
      else None
  | JNull | JBool _ | JNum _ => None
  end.

(** [v.k]: reading a property of [null] or [undefined] throws. *)
Definition member (v : option json) (k : jsstring) : outcome (option json) :=
  match v with
  | None | Some JNull => Threw TypeError
  | Some x => Returned (prop x k)
  end.

(** [v?.k]. *)
Definition opt_member (v : option json) (k : jsstring) : option json :=
  match v with
  | None | Some JNull => None
  | Some x => prop x k
  end.

(** Truthiness; [None] is [undefined]. *)
Definition truthy (v : option json) : bool :=
  match v with
  | None | Some JNull => false
  | Some (JBool b) => b
  | Some (JNum z) => negb (Z.eqb z 0)
  | Some (JStr s) => str_truthy s
  | Some (JArr _) | Some (JObj _) => true
  end.

(** [v > 0]. [undefined] converts to NaN and [null] to 0. *)
Definition gt_zero {R : Runtime} (v : option json) : outcome bool :=
  match v with
  | None | Some JNull => Returned false
  | Some (JBool b) => Returned b
  | Some (JNum z) => Returned (Z.ltb 0 z)
  | Some x =>
      match coerced_gt_zero x with
      | Some b => Returned b
      | None => Threw TypeError
      end
  end.

End JS.

(** ** Calls to the backend *)

Module Net.
Import JS.

Record Request (Q : Type) : Type := {
  url : jsstring;
  method : jsstring;
  headers : list (jsstring * jsstring);
  body : Q
}.
Arguments url {Q} _.
Arguments method {Q} _.
Arguments headers {Q} _.
Arguments body {Q} _.

(** A response: [ok], [status], and what [response.json()] resolves to
    ([None] when the body is not JSON and the promise rejects). *)
Record Response (B : Type) : Type := {
  ok : bool;
  status : Z;
  json_body : option B
}.
Arguments ok {B} _.
Arguments status {B} _.
Arguments json_body {B} _.

Inductive fetch_result (B : Type) : Type :=
| Rejected
| Responded (r : Response B).
Arguments Rejected {B}.
Arguments Responded {B} r.

(** A computation that may send requests: it threads the log of the
    requests sent so far and returns or throws. *)
Definition io (Q A : Type) : Type :=
  list (Request Q) -> outcome A * list (Request Q).

Definition ret {Q A} (a : A) : io Q A := fun log => (Returned a, log).

Definition throw {Q A} (e : exn) : io Q A := fun log => (Threw e, log).

Definition bind {Q A B} (c : io Q A) (k : A -> io Q B) : io Q B :=
  fun log =>
    match c log with
    | (Returned a, log') => k a log'
    | (Threw e, log') => (Threw e, log')
    end.

Definition lift {Q A} (o : outcome A) : io Q A := fun log => (o, log).

(** [await fetch(url, init)] against a backend [net]. *)
Definition fetch {Q B} (net : Request Q -> fetch_result B) (req : Request Q)
  : io Q (Response B) :=
  fun log =>
    (match net req with
     | Rejected => Threw FetchFailed
     | Responded r => Returned r
     end, log ++ [req]).

(** [await response.json()]. *)
Definition response_json {Q B} (r : Response B) : io Q B :=
  match json_body r with
  | Some b => ret b
  | None => throw SyntaxError
  end.

(** [try { c } catch (e) { h e }]. *)
Definition try_catch {Q A} (c : io Q A) (h : exn -> io Q A) : io Q A :=
  fun log =>
    match c log with
    | (Returned a, log') => (Returned a, log')
    | (Threw e, log') => h e log'
    end.

End Net.

Declare Scope io_scope.
Delimit Scope io_scope with io.
Notation "x <- c ;; k" := (Net.bind c (fun x => k))
  (at level 61, c at next level, right associativity) : io_scope.

Declare Scope outcome_scope.
Delimit Scope outcome_scope with outcome.
Notation "x <~ c ;; k" := (JS.and_then c (fun x => k))
  (at level 61, c at next level, right associativity) : outcome_scope.

(** ** src/db/queries.ts *)

Module Queries.
Import JS Net.

(** [process.env]. *)
Record Env : Type := {
  NEXT_PUBLIC_ACCESS_TOKEN : option jsstring;
  NEXT_PUBLIC_SHOP_URL : option jsstring
}.

(** [!process.env.X]: unset or empty. *)
Definition unset (v : option jsstring) : bool :=
  match v with
  | None => true
  | Some s => negb (str_truthy s)
  end.

(** [`${process.env.X}`]. *)
Definition env_text (v : option jsstring) : jsstring :=
  match v with
  | Some s => s
  | None => lit "undefined"
  end.

Definition createSession (env : Env) : outcome (list (jsstring * jsstring)) :=
  if unset (NEXT_PUBLIC_ACCESS_TOKEN env) || unset (NEXT_PUBLIC_SHOP_URL env)
  then Threw MissingConfig
  else Returned
         [ (lit "X-Shopify-Access-Token", env_text (NEXT_PUBLIC_ACCESS_TOKEN env));
           (lit "Content-Type", lit "application/json") ].

(** *** The catalog *)

(** A GraphQL connection: [{ edges: [{ node }, ...] }]. *)
Record Edge (A : Type) : Type := { node : A }.
Arguments node {A} _.
Record Connection (A : Type) : Type := { edges : list (Edge A) }.
Arguments edges {A} _.

Module ImageNode.
Record t : Type := { url : jsstring; src : jsstring }.
End ImageNode.

Module Variant.
Record t : Type := {
  id : jsstring;
  price : jsstring;
  title : jsstring;
  inventoryQuantity : Z
}.
End Variant.

Module Image.
Record t : Type := { src : jsstring }.
End Image.

(** [interface ShopifyProduct]; [image] is the optional field. *)
Module Product.
Record t : Type := {
  id : jsstring;
  title : jsstring;
  handle : jsstring;
  description : jsstring;
  images : Connection ImageNode.t;
  variants : Connection Variant.t;
  image : option Image.t
}.
End Product.
Definition ShopifyProduct : Type := Product.t.

(** [product.image = v]. *)
Definition set_image (product : ShopifyProduct) (v : Image.t) : ShopifyProduct :=
  {| Product.id := Product.id product;
     Product.title := Product.title product;
     Product.handle := Product.handle product;
     Product.description := Product.description product;
     Product.images := Product.images product;
     Product.variants := Product.variants product;
     Product.image := Some v |}.

(** The callback of [data.products.edges.map] in [getProducts]. *)
Definition with_image (edge : Edge ShopifyProduct) : ShopifyProduct :=
  let product := node edge in
  match edges (Product.images product) with
  | first :: _ =>
      set_image product {| Image.src := ImageNode.src (node first) |}
  | [] =>
      set_image product {| Image.src := lit "" |}
  end.

(** The body of the catalog response, [{ data, errors }], with [data] in
    the shape the query asks for. *)
Record ProductsData : Type := { products : Connection ShopifyProduct }.
Record ProductsBody : Type := {
  data : option ProductsData;
  errors : option json
}.

(** The catalog query is a constant of the source. *)
Inductive ProductsQuery : Type := GetProducts.

Definition getProducts (env : Env)
    (net : Request ProductsQuery -> fetch_result ProductsBody)
  : io ProductsQuery (list ShopifyProduct) :=
  (session <- lift (createSession env) ;;
   let shopifyGraphQLUrl :=
     env_text (NEXT_PUBLIC_SHOP_URL env) ++ lit "/admin/api/graphql.json" in
   try_catch
     (response <- fetch net {| url := shopifyGraphQLUrl;
                               method := lit "POST";
                               headers := session;
                               body := GetProducts |} ;;
      if negb (ok response) then throw (HttpError (status response))
      else
        parsed <- response_json response ;;
        if truthy (errors parsed) then throw GraphQLFailed
        else
          match data parsed with
          | None => throw TypeError
          | Some d => ret (map with_image (edges (products d)))
          end)
     (fun error => throw error))%io.

(** *** Province codes *)

Definition SPANISH_PROVINCE_CODES : list (jsstring * jsstring) :=
  [ (0xC1%N :: lit "lava", lit "VI");
    (lit "Albacete", lit "AB");
    (lit "Alicante", lit "A");
    (lit "Almer" ++ 0xED%N :: lit "a", lit "AL");
    (lit "Asturias", lit "O");
    (0xC1%N :: lit "vila", lit "AV");
    (lit "Badajoz", lit "BA");
    (lit "Barcelona", lit "B");
    (lit "Burgos", lit "BU");
    (lit "C" ++ 0xE1%N :: lit "ceres", lit "CC");
    (lit "C" ++ 0xE1%N :: lit "diz", lit "CA");
    (lit "Cantabria", lit "S");
    (lit "Castell" ++ 0xF3%N :: lit "n", lit "CS");
    (lit "Ciudad Real", lit "CR");
    (lit "C" ++ 0xF3%N :: lit "rdoba", lit "CO");
    (lit "La Coru" ++ 0xF1%N :: lit "a", lit "C");
    (lit "Cuenca", lit "CU");
    (lit "Gerona", lit "GI");
    (lit "Granada", lit "GR");
    (lit "Guadalajara", lit "GU");
    (lit "Guip" ++ 0xFA%N :: lit "zcoa", lit "SS");
    (lit "Huelva", lit "H");
    (lit "Huesca", lit "HU");
    (lit "Islas Baleares", lit "PM");
    (lit "Ja" ++ 0xE9%N :: lit "n", lit "J");
    (lit "Le" ++ 0xF3%N :: lit "n", lit "LE");
    (lit "L" ++ 0xE9%N :: lit "rida", lit "L");
    (lit "Lugo", lit "LU");
    (lit "Madrid", lit "M");
    (lit "M" ++ 0xE1%N :: lit "laga", lit "MA");
    (lit "Murcia", lit "MU");
    (lit "Navarra", lit "NA");
    (lit "Orense", lit "OR");
    (lit "Palencia", lit "P");
    (lit "Las Palmas", lit "GC");
    (lit "Pontevedra", lit "PO");
    (lit "La Rioja", lit "LO");
    (lit "Salamanca", lit "SA");
    (lit "Santa Cruz de Tenerife", lit "TF");
    (lit "Segovia", lit "SG");
    (lit "Sevilla", lit "SE");
    (lit "Soria", lit "SO");
    (lit "Tarragona", lit "T");
    (lit "Teruel", lit "TE");
    (lit "Toledo", lit "TO");
    (lit "Valencia", lit "V");
    (lit "Valladolid", lit "VA");
    (lit "Vizcaya", lit "BI");
    (lit "Zamora", lit "ZA");
    (lit "Zaragoza", lit "Z") ].

Section Province.
Context {R : Runtime}.

(** [.replace(/[\u0300-\u036f]/g, "")]. *)
Definition strip_marks (s : jsstring) : jsstring :=
  filter (fun c => negb ((0x300 <=? c) && (c <=? 0x36F))%N) s.

(** [x.normalize("NFD").replace(/[\u0300-\u036f]/g, "").toUpperCase()]. *)
Definition normalized (x : jsstring) : jsstring :=
  toUpperCase (strip_marks (normalizeNFD x)).

(** The loop over [Object.entries(SPANISH_PROVINCE_CODES)]. *)
Fixpoint find_code (normalizedName : jsstring)
    (entries : list (jsstring * jsstring)) : option jsstring :=
  match entries with
  | [] => None
  | (name, code) :: rest =>
      if str_eqb (normalized name) normalizedName then Some code
      else find_code normalizedName rest
  end.

Definition getProvinceCode (provinceName : jsstring) : jsstring :=
  let normalizedName := normalized provinceName in
  match find_code normalizedName SPANISH_PROVINCE_CODES with
  | Some code => code
  | None => provinceName
  end.

End Province.

(** *** Orders *)

(** The object that [createOrder] receives. The declared [OrderInput] has
    the seven text fields, [productId] and [variantId]; the cart form
    passes the seven text fields and [lineItems] instead. A property that
    the caller did not set reads as [undefined]. *)
Module CartLine.
Record t : Type := { variantId : jsstring; quantity : Z }.
End CartLine.

Module OrderInput.
Record t : Type := {
  firstName : jsstring;
  lastName : jsstring;
  email : jsstring;
  phone : jsstring;
  address1 : jsstring;
  city : jsstring;
  zip : jsstring;
  productId : option jsstring;
  variantId : option jsstring;
  lineItems : option (list CartLine.t)
}.
End OrderInput.

Module Address.
Record t : Type := {
  address1 : jsstring;
  address2 : jsstring;
  city : jsstring;
  countryCode : jsstring;
  firstName : jsstring;
  lastName : jsstring;
  phone : jsstring;
  provinceCode : jsstring;
  zip : jsstring
}.
End Address.

Module LineItem.
Record t : Type := {
  variantId : option jsstring;
  quantity : Z;
  requiresShipping : bool
}.
End LineItem.

(** [{ shopMoney: { amount, currencyCode } }]. *)
Record MoneyBag : Type := { amount : jsstring; currencyCode : jsstring }.

Record ShippingLine : Type := { priceSet : MoneyBag; shipping_title : jsstring }.

Record Transaction : Type := {
  amountSet : MoneyBag;
  kind : jsstring;
  gateway : jsstring;
  transaction_status : jsstring
}.

Record OrderCreateOptionsInput : Type := {
  inventoryBehaviour : jsstring;
  sendFulfillmentReceipt : bool;
  sendReceipt : bool
}.

Record OrderCreateOrderInput : Type := {
  billingAddress : Address.t;
  buyerAcceptsMarketing : bool;
  currency : jsstring;
  order_email : jsstring;
  financialStatus : jsstring;
  lineItems : list LineItem.t;
  note : jsstring;
  shippingAddress : Address.t;
  shippingLines : list ShippingLine;
  tags : list jsstring;
  taxesIncluded : bool;
  test : bool;
  transactions : list Transaction
}.

(** The body of the order request: the [OrderCreate] mutation, a constant
    of the source, with its [variables]. *)
Record OrderCreate : Type := {
  options : OrderCreateOptionsInput;
  order : OrderCreateOrderInput
}.

(** What [createOrder] returns: [{ success: false, error }] or
    [{ success: true, data }]. *)
Inductive OrderResult : Type :=
| Failure (error : json)
| Success (data : json).

Definition success (r : OrderResult) : bool :=
  match r with
  | Failure _ => false
  | Success _ => true
  end.

Section Orders.
Context {R : Runtime}.

(** The [variables] of the mutation. *)
Definition variables (orderData : OrderInput.t) (provinceCode : jsstring)
  : OrderCreate :=
  {| options :=
       {| inventoryBehaviour := lit "DECREMENT_OBEYING_POLICY";
          sendFulfillmentReceipt := true;
          sendReceipt := true |};
     order :=
       {| billingAddress :=
            {| Address.address1 := OrderInput.address1 orderData;
               Address.address2 := lit "";
               Address.city := OrderInput.city orderData;
               Address.countryCode := lit "ES";
               Address.firstName :=
                 str_or (OrderInput.firstName orderData) (lit "Return");
               Address.lastName :=
                 str_or (OrderInput.lastName orderData) (lit "Return");
               Address.phone :=
                 str_or (OrderInput.phone orderData) (lit "+34608667749");
               Address.provinceCode := provinceCode;
               Address.zip := OrderInput.zip orderData |};
          buyerAcceptsMarketing := true;
          currency := lit "EUR";
          order_email := OrderInput.email orderData;
          financialStatus := lit "PAID";
          lineItems :=
            [ {| LineItem.variantId := OrderInput.variantId orderData;
                 LineItem.quantity := 1;
                 LineItem.requiresShipping := true |} ];
          note := lit "Pedido Pop Up";
          shippingAddress :=
            {| Address.address1 := OrderInput.address1 orderData;
               Address.address2 := lit "";
               Address.city := OrderInput.city orderData;
               Address.countryCode := lit "ES";
               Address.firstName :=
                 str_or (OrderInput.firstName orderData) (lit "Return");
               Address.lastName :=
                 str_or (OrderInput.lastName orderData) (lit "Return");
               Address.phone :=
                 str_or (OrderInput.phone orderData) (lit "+34608667749");
               Address.provinceCode := provinceCode;
               Address.zip := OrderInput.zip orderData |};
          shippingLines :=
            [ {| priceSet := {| amount := lit "4.00"; currencyCode := lit "EUR" |};
                 shipping_title := lit "Est" ++ 0xE1%N :: lit "ndar" |} ];
          tags := [ lit "Pop Up" ];
          taxesIncluded := true;
          test := false;
          transactions :=
            [ {| amountSet := {| amount := lit "0.01"; currencyCode := lit "EUR" |};
                 kind := lit "SALE";
                 gateway := lit "manual";
                 transaction_status := lit "SUCCESS" |} ] |} |}.

(** The condition of the logging [if]:
    [data.errors || data.data?.orderCreate?.userErrors?.length > 0]. *)
Definition should_log (data : json) : outcome bool :=
  (errors <~ member (Some data) (lit "errors") ;;
   if truthy errors then Returned true
   else
     inner <~ member (Some data) (lit "data") ;;
     gt_zero
       (opt_member
          (opt_member (opt_member inner (lit "orderCreate")) (lit "userErrors"))
          (lit "length")))%outcome.

(** [createOrder] from the parsed response on. *)
Definition classify (data : json) : outcome OrderResult :=
  (_ <~ should_log data ;;
   let orderResponse :=
     opt_member (opt_member (Some data) (lit "data")) (lit "orderCreate") in
   if negb (truthy orderResponse)
   then Returned (Failure (JStr (lit "Missing orderCreate field")))
   else
     userErrors <~ member orderResponse (lit "userErrors") ;;
     has_errors <~
       (if truthy userErrors
        then length <~ member userErrors (lit "length") ;; gt_zero length
        else Returned false) ;;
     match has_errors, userErrors with
     | true, Some errors => Returned (Failure errors)
     | _, _ =>
         createdOrder <~ member orderResponse (lit "order") ;;
         match createdOrder with
         | Some created =>
             if truthy createdOrder then Returned (Success created)
             else Returned (Failure (JStr (lit "Order not found in response")))
         | None =>
             Returned (Failure (JStr (lit "Order not found in response")))
         end
     end)%outcome.

(** The arguments of the [fetch] call of [createOrder]. *)
Definition order_request (env : Env) (session : list (jsstring * jsstring))
    (orderData : OrderInput.t) : Request OrderCreate :=
  let shopifyGraphQLUrl :=
    env_text (NEXT_PUBLIC_SHOP_URL env)
      ++ lit "/admin/api/2025-01/graphql.json" in
  let provinceCode := getProvinceCode (OrderInput.city orderData) in
  {| url := shopifyGraphQLUrl;
     method := lit "POST";
     headers := session;
     body := variables orderData provinceCode |}.

Definition createOrder (env : Env)
    (net : Request OrderCreate -> fetch_result json)
    (orderData : OrderInput.t)
  : io OrderCreate OrderResult :=
  (session <- lift (createSession env) ;;
   try_catch
     (response <- fetch net (order_request env session orderData) ;;
      data <- response_json response ;;
      lift (classify data))
     (fun error => throw error))%io.

End Orders.

End Queries.

(** ** The cart form (OrderForm) *)

Module OrderForm.
Import JS Net Queries.
Local Open Scope Z_scope.

Module CartItem.
Record t : Type := {
  productId : jsstring;
  variantId : jsstring;
  quantity : Z;
  product : ShopifyProduct;
  variant : Variant.t
}.
End CartItem.

Module FormData.
Record t : Type := {
  address1 : jsstring;
  city : jsstring;
  firstName : jsstring;
  lastName : jsstring;
  phone : jsstring;
  zip : jsstring;
  email : jsstring
}.
Definition empty : t :=
  {| address1 := lit ""; city := lit ""; firstName := lit "";
     lastName := lit ""; phone := lit ""; zip := lit ""; email := lit "" |}.
End FormData.

(** The texts given to [setError]; the numbers of the two stock messages
    are kept apart from the wording. *)
Inductive message : Type :=
| PleaseAddProduct
| CannotAdd (quantity available : Z)
| CannotSet (quantity stock : Z)
| Caught (e : exn).

(** The [useState] cells of the component. *)
Record State : Type := {
  formData : FormData.t;
  cartItems : list CartItem.t;
  isSubmitting : bool;
  error : option message;
  success_shown : bool;
  showProductModal : bool
}.

Definition initial : State :=
  {| formData := FormData.empty;
     cartItems := [];
     isSubmitting := false;
     error := None;
     success_shown := false;
     showProductModal := false |}.

Definition setFormData (v : FormData.t) (st : State) : State :=
  {| formData := v; cartItems := cartItems st;
     isSubmitting := isSubmitting st; error := error st;
     success_shown := success_shown st;
     showProductModal := showProductModal st |}.

Definition setCartItems (f : list CartItem.t -> list CartItem.t) (st : State)
  : State :=
  {| formData := formData st; cartItems := f (cartItems st);
     isSubmitting := isSubmitting st; error := error st;
     success_shown := success_shown st;
     showProductModal := showProductModal st |}.

Definition setIsSubmitting (v : bool) (st : State) : State :=
  {| formData := formData st; cartItems := cartItems st;
     isSubmitting := v; error := error st;
     success_shown := success_shown st;
     showProductModal := showProductModal st |}.

Definition setError (v : option message) (st : State) : State :=
  {| formData := formData st; cartItems := cartItems st;
     isSubmitting := isSubmitting st; error := v;
     success_shown := success_shown st;
     showProductModal := showProductModal st |}.

Definition setSuccess (v : bool) (st : State) : State :=
  {| formData := formData st; cartItems := cartItems st;
     isSubmitting := isSubmitting st; error := error st;
     success_shown := v;
     showProductModal := showProductModal st |}.

Definition setShowProductModal (v : bool) (st : State) : State :=
  {| formData := formData st; cartItems := cartItems st;
     isSubmitting := isSubmitting st; error := error st;
     success_shown := success_shown st;
     showProductModal := v |}.

(** [{ ...item, quantity: q }]. *)
Definition with_quantity (item : CartItem.t) (q : Z) : CartItem.t :=
  {| CartItem.productId := CartItem.productId item;
     CartItem.variantId := CartItem.variantId item;
     CartItem.quantity := q;
     CartItem.product := CartItem.product item;
     CartItem.variant := CartItem.variant item |}.

(** [xs.findIndex(p)], counting from [i]; -1 when nothing matches. *)
Fixpoint findIndex_from {A} (p : A -> bool) (i : Z) (xs : list A) : Z :=
  match xs with
  | [] => -1
  | x :: rest => if p x then i else findIndex_from p (i + 1) rest
  end.
Definition findIndex {A} (p : A -> bool) (xs : list A) : Z :=
  findIndex_from p 0 xs.

(** [xs.map((x, index) => f x index)], counting from [i]. *)
Fixpoint mapi_from {A B} (f : A -> Z -> B) (i : Z) (xs : list A) : list B :=
  match xs with
  | [] => []
  | x :: rest => f x i :: mapi_from f (i + 1) rest
  end.
Definition mapi {A B} (f : A -> Z -> B) (xs : list A) : list B :=
  mapi_from f 0 xs.

(** The first element that satisfies [p] replaced by its image under [f]:
    what the indexed [map] of [addToCart] computes. *)
Fixpoint update_first {A} (p : A -> bool) (f : A -> A) (xs : list A) : list A :=
  match xs with
  | [] => []
  | x :: rest => if p x then f x :: rest else x :: update_first p f rest
  end.

(** A handler runs against the state that was rendered, so the
    [cartItems] it closes over is the [prev] of its functional update. *)
Definition addToCart (product : ShopifyProduct) (variant : Variant.t)
    (quantity : Z) (st : State) : State :=
  let existingItem :=
    find (fun item => str_eqb (CartItem.variantId item) (Variant.id variant))
      (cartItems st) in
  let currentQuantity :=
    match existingItem with
    | Some item => CartItem.quantity item
    | None => 0
    end in
  if currentQuantity + quantity >? Variant.inventoryQuantity variant
  then
    setError
      (Some (CannotAdd quantity
               (Variant.inventoryQuantity variant - currentQuantity))) st
  else
    let existingItemIndex :=
      findIndex
        (fun item => str_eqb (CartItem.variantId item) (Variant.id variant))
        (cartItems st) in
    let st' :=
      if existingItemIndex >=? 0
      then
        setCartItems
          (fun prev =>
             mapi (fun item index =>
                     if index =? existingItemIndex
                     then with_quantity item (CartItem.quantity item + quantity)
                     else item) prev) st
      else
        setCartItems
          (fun prev =>
             prev ++ [ {| CartItem.productId := Product.id product;
                          CartItem.variantId := Variant.id variant;
                          CartItem.quantity := quantity;
                          CartItem.product := product;
                          CartItem.variant := variant |} ]) st in
    setError None (setShowProductModal false st').

Definition removeFromCart (variantId : jsstring) (st : State) : State :=
  setCartItems
    (fun prev =>
       filter (fun item => negb (str_eqb (CartItem.variantId item) variantId))
         prev) st.

Definition updateQuantity (variantId : jsstring) (quantity : Z) (st : State)
  : State :=
  if quantity <=? 0 then removeFromCart variantId st
  else
    let item :=
      find (fun item => str_eqb (CartItem.variantId item) variantId)
        (cartItems st) in
    let update (st : State) :=
      setError None
        (setCartItems
           (fun prev =>
              map (fun item =>
                     if str_eqb (CartItem.variantId item) variantId
                     then with_quantity item quantity else item) prev) st) in
    match item with
    | Some found =>
        if quantity >? Variant.inventoryQuantity (CartItem.variant found)
        then
          setError
            (Some (CannotSet quantity
                     (Variant.inventoryQuantity (CartItem.variant found)))) st
        else update st
    | None => update st
    end.

(** [getTotalItems]. *)
Definition getTotalItems (st : State) : Z :=
  fold_left (fun total item => total + CartItem.quantity item)
    (cartItems st) 0.

Section Submit.
Context {R : Runtime}.
Variable env : Env.
Variable net : Request OrderCreate -> fetch_result json.

(** The [orderData] that [handleSubmit] builds from the form and the
    cart. *)
Definition orderData_of (st : State) : OrderInput.t :=
  {| OrderInput.firstName := FormData.firstName (formData st);
     OrderInput.lastName := FormData.lastName (formData st);
     OrderInput.email := FormData.email (formData st);
     OrderInput.phone := FormData.phone (formData st);
     OrderInput.address1 := FormData.address1 (formData st);
     OrderInput.city := FormData.city (formData st);
     OrderInput.zip := FormData.zip (formData st);
     OrderInput.productId := None;
     OrderInput.variantId := None;
     OrderInput.lineItems :=
       Some (map (fun item =>
                    {| CartLine.variantId := CartItem.variantId item;
                       CartLine.quantity := CartItem.quantity item |})
               (cartItems st)) |}.

Definition handleSubmit (st : State) : io OrderCreate State :=
  match cartItems st with
  | [] => ret (setError (Some PleaseAddProduct) st)
  | _ :: _ =>
      let st1 := setSuccess false (setError None (setIsSubmitting true st)) in
      (st2 <-
         try_catch
           (_ <- createOrder env net (orderData_of st) ;;
            ret (setCartItems (fun _ => [])
                   (setFormData FormData.empty (setSuccess true st1))))
           (fun err => ret (setError (Some (Caught err)) st1)) ;;
       ret (setIsSubmitting false st2))%io
  end.

End Submit.

(** *** The states the cart can be in *)

(** The quantity of a variant already in the cart ([currentQuantity] in
    [addToCart]). *)
Definition currentQuantity (variantId : jsstring) (st : State) : Z :=
  match find (fun item => str_eqb (CartItem.variantId item) variantId)
          (cartItems st) with
  | Some item => CartItem.quantity item
  | None => 0
  end.

Section Cart.
(** The [products] prop: the catalog that the page was rendered with. *)
Variable products : list ShopifyProduct.

(** The "Add" button of a variant row calls
    [addToCart(product, variant.node, 1)] for a product of the catalog
    and one of its variants. *)
Definition offered (product : ShopifyProduct) (variant : Variant.t) : Prop :=
  In product products /\
  In variant (map node (edges (Product.variants product))).

(** In the catalog a variant id names one variant. *)
Definition variant_ids_unique : Prop :=
  forall p1 v1 p2 v2,
    offered p1 v1 -> offered p2 v2 ->
    Variant.id v1 = Variant.id v2 -> v1 = v2.

(** The states reached from the empty cart by the three cart handlers.
    The buttons add one unit at a time; any positive quantity is
    allowed here, and any argument to the other two handlers. *)
Inductive reachable : State -> Prop :=
| reach_initial : reachable initial
| reach_add product variant quantity st :
    reachable st -> offered product variant -> 0 < quantity ->
    reachable (addToCart product variant quantity st)
| reach_update variantId quantity st :
    reachable st -> reachable (updateQuantity variantId quantity st)
| reach_remove variantId st :
    reachable st -> reachable (removeFromCart variantId st).

(** The stock ceiling of one cart line. *)
Definition within_stock (item : CartItem.t) : Prop :=
  CartItem.quantity item <= Variant.inventoryQuantity (CartItem.variant item).

End Cart.

End OrderForm.

(** ** src/app/components/AddressAutocomplete.tsx *)

Module AddressAutocomplete.
Import JS.

(** *** The script loader *)

Inductive promise_state : Type := Pending | Resolved | Rejected.

(** A script element appended by the loader: the promise that its
    [onload] and [onerror] handlers settle, and whether the browser has
    already fired one of them. *)
Record Script : Type := { settles : nat; fired : bool }.

(** The module-level variables, the promises made so far (a promise is
    named by its position), and the maps script elements of the document:
    those appended by the loader and whether some other one is there. *)
Record Page : Type := {
  isScriptLoaded : bool;
  scriptLoadPromise : option nat;
  promises : list promise_state;
  injected : list Script;
  foreign_script : bool
}.

Definition initial (foreign : bool) : Page :=
  {| isScriptLoaded := false;
     scriptLoadPromise := None;
     promises := [];
     injected := [];
     foreign_script := foreign |}.

(** [document.querySelector('script[src*="maps.googleapis.com/maps/api/js"]')]
    finds something. *)
Definition existingScript (pg : Page) : bool :=
  match injected pg with
  | [] => foreign_script pg
  | _ :: _ => true
  end.

(** [resolve()] or [reject()] of promise [p]: a settled promise stays as
    it is. *)
Fixpoint settle (p : nat) (to : promise_state) (ps : list promise_state)
  : list promise_state :=
  match ps, p with
  | [], _ => []
  | Pending :: rest, O => to :: rest
  | s :: rest, O => s :: rest
  | s :: rest, S p' => s :: settle p' to rest
  end.

(** The call returns a promise; the executor of [new Promise] runs
    before the call returns. *)
Definition loadGoogleMapsScript (pg : Page) : Page * nat :=
  if isScriptLoaded pg
  then
    (* Promise.resolve() *)
    ({| isScriptLoaded := true;
        scriptLoadPromise := scriptLoadPromise pg;
        promises := promises pg ++ [Resolved];
        injected := injected pg;
        foreign_script := foreign_script pg |},
     List.length (promises pg))
  else
    match scriptLoadPromise pg with
    | Some p => (pg, p)
    | None =>
        let p := List.length (promises pg) in
        if existingScript pg
        then
          ({| isScriptLoaded := true;
              scriptLoadPromise := Some p;
              promises := promises pg ++ [Resolved];
              injected := injected pg;
              foreign_script := foreign_script pg |}, p)
        else
          ({| isScriptLoaded := false;
              scriptLoadPromise := Some p;
              promises := promises pg ++ [Pending];
              injected := injected pg ++ [ {| settles := p; fired := false |} ];
              foreign_script := foreign_script pg |}, p)
    end.

(** Mark the [k]-th appended script as fired and give the promise of its
    handlers; nothing when there is no such script or it has fired. *)
Fixpoint fire (k : nat) (scripts : list Script) : option (nat * list Script) :=
  match scripts, k with
  | [], _ => None
  | s :: rest, O =>
      if fired s then None
      else Some (settles s, {| settles := settles s; fired := true |} :: rest)
  | s :: rest, S k' =>
      match fire k' rest with
      | Some (p, rest') => Some (p, s :: rest')
      | None => None
      end
  end.

(** What happens on the page: a call of the loader, the browser firing
    [onload] or [onerror] of an appended script, or somebody else adding
    a maps script element. *)
Inductive event : Type :=
| Call
| ScriptLoaded (k : nat)
| ScriptFailed (k : nat)
| Foreign.

Definition step (pg : Page) (e : event) : Page * option nat :=
  match e with
  | Call => let (pg', p) := loadGoogleMapsScript pg in (pg', Some p)
  | ScriptLoaded k =>
      match fire k (injected pg) with
      | Some (p, scripts) =>
          ({| isScriptLoaded := true;
              scriptLoadPromise := scriptLoadPromise pg;
              promises := settle p Resolved (promises pg);
              injected := scripts;
              foreign_script := foreign_script pg |}, None)
      | None => (pg, None)
      end
  | ScriptFailed k =>
      match fire k (injected pg) with
      | Some (p, scripts) =>
          ({| isScriptLoaded := isScriptLoaded pg;
              scriptLoadPromise := scriptLoadPromise pg;
              promises := settle p Rejected (promises pg);
              injected := scripts;
              foreign_script := foreign_script pg |}, None)
      | None => (pg, None)
      end
  | Foreign =>
      ({| isScriptLoaded := isScriptLoaded pg;
          scriptLoadPromise := scriptLoadPromise pg;
          promises := promises pg;
          injected := injected pg;
          foreign_script := true |}, None)
  end.

(** A run: the page at the end and the promises that the calls returned,
    in call order. *)
Fixpoint run (pg : Page) (events : list event) : Page * list nat :=
  match events with
  | [] => (pg, [])
  | e :: rest =>
      let (pg', r) := step pg e in
      let (final, returned) := run pg' rest in
      (final, match r with Some p => p :: returned | None => returned end)
  end.

(** *** The place that was picked *)

Record AddressComponent : Type := {
  long_name : jsstring;
  short_name : jsstring;
  types : list jsstring
}.

Record Place : Type := {
  address_components : option (list AddressComponent);
  formatted_address : option jsstring;
  name : option jsstring
}.

(** The argument of [onAddressSelect]. *)
Record Address : Type := { street : jsstring; city : jsstring; zip : jsstring }.

(** [types.includes(t)]. *)
Definition includes (types : list jsstring) (t : jsstring) : bool :=
  existsb (fun x => str_eqb x t) types.

(** One turn of the loop over [place.address_components]. *)
Definition visit (acc : Address) (component : AddressComponent) : Address :=
  let types := types component in
  let street :=
    if includes types (lit "route") || includes types (lit "street_number")
    then
      if str_truthy (street acc)
      then street acc ++ lit " " ++ long_name component
      else long_name component
    else street acc in
  let city :=
    if includes types (lit "locality")
       || includes types (lit "administrative_area_level_2")
    then long_name component
    else city acc in
  let zip :=
    if includes types (lit "postal_code") then long_name component
    else zip acc in
  {| street := street; city := city; zip := zip |}.

(** The [long_name]s, in order, of the components that have one of the
    types [wanted]. *)
Definition names_typed (wanted : list jsstring)
    (components : list AddressComponent) : list jsstring :=
  map long_name
    (filter (fun c => existsb (includes (types c)) wanted) components).

Definition street_names := names_typed [ lit "route"; lit "street_number" ].
Definition city_names :=
  names_typed [ lit "locality"; lit "administrative_area_level_2" ].
Definition zip_names := names_typed [ lit "postal_code" ].

(** The listener of [place_changed], given what [getPlace()] returned:
    the address handed to [onAddressSelect], or [None] when the callback
    is not called. *)
Definition handlePlaceChanged (place : Place) : option Address :=
  match address_components place with
  | None => None
  | Some components =>
      let parsed :=
        fold_left visit components
          {| street := lit ""; city := lit ""; zip := lit "" |} in
      let street :=
        match formatted_address place with
        | Some formatted =>
            if negb (str_truthy (street parsed)) && str_truthy formatted
            then formatted else street parsed
        | None => street parsed
        end in
      Some {| street := str_or street (lit "");
              city := str_or (city parsed) (lit "");
              zip := str_or (zip parsed) (lit "") |}
  end.

End AddressAutocomplete.

(** ** The rest of the cart form *)

Module CartScreen.
Import JS Net Queries OrderForm.
Local Open Scope Z_scope.

(** [{ ...prev, [name]: value }] on the form data. A name that is not
    one of the seven fields adds a property that nothing reads. *)
Definition set_field (name value : jsstring) (prev : FormData.t) : FormData.t :=
  {| FormData.address1 :=
       if str_eqb name (lit "address1") then value else FormData.address1 prev;
     FormData.city :=
       if str_eqb name (lit "city") then value else FormData.city prev;
     FormData.firstName :=
       if str_eqb name (lit "firstName") then value else FormData.firstName prev;
     FormData.lastName :=
       if str_eqb name (lit "lastName") then value else FormData.lastName prev;
     FormData.phone :=
       if str_eqb name (lit "phone") then value else FormData.phone prev;
     FormData.zip :=
       if str_eqb name (lit "zip") then value else FormData.zip prev;
     FormData.email :=
       if str_eqb name (lit "email") then value else FormData.email prev |}.

(** [handleChange], given [e.target.name] and [e.target.value]. *)
Definition handleChange (name value : jsstring) (st : State) : State :=
  setFormData (set_field name value (formData st)) st.

Definition handleAddressSelect (address : AddressAutocomplete.Address)
    (st : State) : State :=
  setFormData
    {| FormData.address1 := AddressAutocomplete.street address;
       FormData.city := AddressAutocomplete.city address;
       FormData.firstName := FormData.firstName (formData st);
       FormData.lastName := FormData.lastName (formData st);
       FormData.phone := FormData.phone (formData st);
       FormData.zip := AddressAutocomplete.zip address;
       FormData.email := FormData.email (formData st) |} st.

(** [v.node.inventoryQuantity > 0]. *)
Definition in_stock (v : Edge Variant.t) : bool :=
  Variant.inventoryQuantity (node v) >? 0.

(** The variant rows of a product in the picker:
    [product.variants.edges.filter(...)]. *)
Definition shown_variants (product : ShopifyProduct) : list (Edge Variant.t) :=
  filter in_stock (edges (Product.variants product)).

(** [remainingStock] of a variant row. *)
Definition remainingStock (variant : Variant.t) (st : State) : Z :=
  Variant.inventoryQuantity variant - currentQuantity (Variant.id variant) st.

(** The "Add" button of a row is [disabled={remainingStock === 0}]. *)
Definition add_enabled (variant : Variant.t) (st : State) : bool :=
  negb (remainingStock variant st =? 0).

(** [s.startsWith(p)] and [s.includes(sub)] on code units. *)
Fixpoint starts_with (s p : jsstring) : bool :=
  match p, s with
  | [], _ => true
  | _ :: _, [] => false
  | y :: p', x :: s' => N.eqb x y && starts_with s' p'
  end.

Fixpoint text_includes (s sub : jsstring) : bool :=
  starts_with s sub
  || match s with
     | [] => false
     | _ :: s' => text_includes s' sub
     end.

Section Picker.
(** [String.prototype.toLowerCase], which the code calls and does not
    define. *)
Variable toLowerCase : jsstring -> jsstring.

(** [availableProducts] for the [products] prop and the search box. *)
Definition availableProducts (products : list ShopifyProduct)
    (searchTerm : jsstring) : list ShopifyProduct :=
  filter
    (fun product =>
       existsb in_stock (edges (Product.variants product))
       && text_includes (toLowerCase (Product.title product))
            (toLowerCase searchTerm))
    products.

End Picker.

End CartScreen.

(** ** The single-product form *)

Module SingleForm.
Import JS Net Queries.

Module FormData.
Record t : Type := {
  address1 : jsstring;
  city : jsstring;
  firstName : jsstring;
  lastName : jsstring;
  phone : jsstring;
  zip : jsstring;
  email : jsstring;
  product : jsstring;
  variant : jsstring
}.
Definition empty : t :=
  {| address1 := lit ""; city := lit ""; firstName := lit "";
     lastName := lit ""; phone := lit ""; zip := lit ""; email := lit "";
     product := lit ""; variant := lit "" |}.
End FormData.

Record State : Type := {
  formData : FormData.t;
  isSubmitting : bool;
  error : option OrderForm.message;
  success_shown : bool
}.

(** [{ ...prev, [name]: value, ...(name === "product" && { variant: "" }) }]. *)
Definition handleChange (name value : jsstring) (st : State) : State :=
  let prev := formData st in
  {| formData :=
       {| FormData.address1 :=
            if str_eqb name (lit "address1") then value
            else FormData.address1 prev;
          FormData.city :=
            if str_eqb name (lit "city") then value else FormData.city prev;
          FormData.firstName :=
            if str_eqb name (lit "firstName") then value
            else FormData.firstName prev;
          FormData.lastName :=
            if str_eqb name (lit "lastName") then value
            else FormData.lastName prev;
          FormData.phone :=
            if str_eqb name (lit "phone") then value else FormData.phone prev;
          FormData.zip :=
            if str_eqb name (lit "zip") then value else FormData.zip prev;
          FormData.email :=
            if str_eqb name (lit "email") then value else FormData.email prev;
          FormData.product :=
            if str_eqb name (lit "product") then value
            else FormData.product prev;
          FormData.variant :=
            if str_eqb name (lit "product") then lit ""
            else if str_eqb name (lit "variant") then value
                 else FormData.variant prev |};
     isSubmitting := isSubmitting st;
     error := error st;
     success_shown := success_shown st |}.

(** [selectedProduct]. *)
Definition selectedProduct (products : list ShopifyProduct) (st : State)
  : option ShopifyProduct :=
  find (fun p => str_eqb (Product.id p) (FormData.product (formData st)))
    products.

(** [availableVariants]: the variants in stock of the selected product,
    none when no product is selected. *)
Definition availableVariants (products : list ShopifyProduct) (st : State)
  : list Variant.t :=
  match selectedProduct products st with
  | Some selected =>
      map node (filter CartScreen.in_stock (edges (Product.variants selected)))
  | None => []
  end.

Section Submit.
Context {R : Runtime}.
Variable env : Env.
Variable net : Request OrderCreate -> fetch_result json.

Definition orderData_of (st : State) : OrderInput.t :=
  {| OrderInput.firstName := FormData.firstName (formData st);
     OrderInput.lastName := FormData.lastName (formData st);
     OrderInput.email := FormData.email (formData st);
     OrderInput.phone := FormData.phone (formData st);
     OrderInput.address1 := FormData.address1 (formData st);
     OrderInput.city := FormData.city (formData st);
     OrderInput.zip := FormData.zip (formData st);
     OrderInput.productId := Some (FormData.product (formData st));
     OrderInput.variantId := Some (FormData.variant (formData st));
     OrderInput.lineItems := None |}.

Definition handleSubmit (st : State) : io OrderCreate State :=
  let st1 :=
    {| formData := formData st; isSubmitting := true;
       error := None; success_shown := false |} in
  (st2 <-
     try_catch
       (_ <- createOrder env net (orderData_of st) ;;
        ret {| formData := FormData.empty;
               isSubmitting := isSubmitting st1;
               error := error st1;
               success_shown := true |})
       (fun err =>
          ret {| formData := formData st1;
                 isSubmitting := isSubmitting st1;
                 error := Some (OrderForm.Caught err);
                 success_shown := success_shown st1 |}) ;;
   ret {| formData := formData st2; isSubmitting := false;
          error := error st2; success_shown := success_shown st2 |})%io.

End Submit.

End SingleForm.

(** ** Text helpers for statements *)

Module Text.
Import JS.

(** A list of names without the empty ones it starts with. *)
Fixpoint drop_leading_empty (names : list jsstring) : list jsstring :=
  match names with
  | [] :: rest => drop_leading_empty rest
  | _ => names
  end.

(** The accent-stripped upper-case form of a Latin-1 string, spelled out
    letter by letter and without the code's normalization: an accented
    Latin-1 letter is replaced by its base letter, then the text is put
    in upper case. *)
Definition unaccent_unit (c : code_unit) : code_unit :=
  (if (0xC0 <=? c) && (c <=? 0xC5) then 0x41        (* A *)
   else if c =? 0xC7 then 0x43                      (* C *)
   else if (0xC8 <=? c) && (c <=? 0xCB) then 0x45   (* E *)
   else if (0xCC <=? c) && (c <=? 0xCF) then 0x49   (* I *)
   else if c =? 0xD1 then 0x4E                      (* N *)
   else if (0xD2 <=? c) && (c <=? 0xD6) then 0x4F   (* O *)
   else if (0xD9 <=? c) && (c <=? 0xDC) then 0x55   (* U *)
   else if c =? 0xDD then 0x59                      (* Y *)
   else if (0xE0 <=? c) && (c <=? 0xE5) then 0x61   (* a *)
   else if c =? 0xE7 then 0x63                      (* c *)
   else if (0xE8 <=? c) && (c <=? 0xEB) then 0x65   (* e *)
   else if (0xEC <=? c) && (c <=? 0xEF) then 0x69   (* i *)
   else if c =? 0xF1 then 0x6E                      (* n *)
   else if (0xF2 <=? c) && (c <=? 0xF6) then 0x6F   (* o *)
   else if (0xF9 <=? c) && (c <=? 0xFC) then 0x75   (* u *)
   else if (c =? 0xFD) || (c =? 0xFF) then 0x79     (* y *)
   else c)%N.

Definition plain_upper (s : jsstring) : jsstring :=
  upper_latin1 (map unaccent_unit s).

End Text.

(** ** Sample data *)

Module Sample.
Import JS Net Queries.

(** An environment with both settings present. *)
Definition configured : Env :=
  {| NEXT_PUBLIC_ACCESS_TOKEN := Some (lit "shpat_token");
     NEXT_PUBLIC_SHOP_URL := Some (lit "https://shop.example") |}.

(** A backend that answers every request with the same response. *)
Definition always {Q B} (r : Response B) : Request Q -> fetch_result B :=
  fun _ => Responded r.

(** A response whose body parsed to [data]. *)
Definition answer {B} (ok : bool) (status : Z) (data : B) : Response B :=
  {| Net.ok := ok; Net.status := status; json_body := Some data |}.

Definition tee_variant : Variant.t :=
  {| Variant.id := lit "gid://shopify/ProductVariant/1";
     Variant.price := lit "25.00";
     Variant.title := lit "M";
     Variant.inventoryQuantity := 3 |}.

Definition tee : ShopifyProduct :=
  {| Product.id := lit "gid://shopify/Product/1";
     Product.title := lit "Tee";
     Product.handle := lit "tee";
     Product.description := lit "";
     Product.images := {| edges := [] |};
     Product.variants := {| edges := [ {| node := tee_variant |} ] |};
     Product.image := Some {| Image.src := lit "" |} |}.

Definition poster_image : ImageNode.t :=
  {| ImageNode.url := lit "https://cdn.example/poster.jpg";
     ImageNode.src := lit "https://cdn.example/poster.jpg" |}.

(** A product as the backend sends it: one image, no [image] yet. *)
Definition poster : ShopifyProduct :=
  {| Product.id := lit "gid://shopify/Product/2";
     Product.title := lit "Poster";
     Product.handle := lit "poster";
     Product.description := lit "";
     Product.images := {| edges := [ {| node := poster_image |} ] |};
     Product.variants := {| edges := [] |};
     Product.image := None |}.

Definition catalog_body : ProductsBody :=
  {| data := Some {| products :=
                       {| edges := [ {| node := tee |}; {| node := poster |} ] |} |};
     errors := None |}.

(** The order that the backend reports back. *)
Definition created_order : json :=
  JObj [ (lit "id", JStr (lit "gid://shopify/Order/1"));
         (lit "name", JStr (lit "#1001")) ].

Definition created_response : json :=
  JObj [ (lit "data",
          JObj [ (lit "orderCreate",
                  JObj [ (lit "order", created_order);
                         (lit "userErrors", JArr []) ]) ]) ].

Definition user_error : json :=
  JObj [ (lit "field", JNull); (lit "message", JStr (lit "x")) ].

Definition rejected_response : json :=
  JObj [ (lit "data",
          JObj [ (lit "orderCreate",
                  JObj [ (lit "order", JNull);
                         (lit "userErrors", JArr [ user_error ]) ]) ]) ].

Definition contact (firstName lastName phone : jsstring) : OrderInput.t :=
  {| OrderInput.firstName := firstName;
     OrderInput.lastName := lastName;
     OrderInput.email := lit "ana@example.com";
     OrderInput.phone := phone;
     OrderInput.address1 := lit "Calle Mayor 1";
     OrderInput.city := lit "Madrid";
     OrderInput.zip := lit "28013";
     OrderInput.productId := Some (Product.id tee);
     OrderInput.variantId := Some (Variant.id tee_variant);
     OrderInput.lineItems := None |}.

(** A place as the widget reports it. *)
Definition component (long_name : jsstring) (types : list jsstring)
  : AddressAutocomplete.AddressComponent :=
  {| AddressAutocomplete.long_name := long_name;
     AddressAutocomplete.short_name := long_name;
     AddressAutocomplete.types := types |}.

Definition calle_mayor : AddressAutocomplete.Place :=
  {| AddressAutocomplete.address_components :=
       Some [ component (lit "12") [ lit "street_number" ];
              component (lit "Calle Mayor") [ lit "route" ];
              component (lit "Madrid") [ lit "locality"; lit "political" ];
              component (lit "Madrid")
                [ lit "administrative_area_level_2"; lit "political" ];
              component (lit "Spain") [ lit "country"; lit "political" ];
              component (lit "28013") [ lit "postal_code" ] ];
     AddressAutocomplete.formatted_address :=
       Some (lit "Calle Mayor, 12, 28013 Madrid, Spain");
     AddressAutocomplete.name := Some (lit "Calle Mayor, 12") |}.

End Sample.

(** ** More sample data *)

Module Cases.
Import JS Net Queries.

(** An environment without the access token. *)
Definition no_token : Env :=
  {| NEXT_PUBLIC_ACCESS_TOKEN := None;
     NEXT_PUBLIC_SHOP_URL := Some (lit "https://shop.example") |}.

(** A backend that cannot be reached. *)
Definition unreachable {Q B} : Request Q -> fetch_result B :=
  fun _ => Rejected.

(** A catalog response that carries both data and errors. *)
Definition catalog_with_errors : ProductsBody :=
  {| data := data Sample.catalog_body;
     errors := Some (JArr [ JObj [ (lit "message", JStr (lit "throttled")) ] ]) |}.

(** The cart of the scenario: two units of the one variant. *)
Definition two_tees : OrderForm.State :=
  OrderForm.addToCart Sample.tee Sample.tee_variant 2 OrderForm.initial.

(** The single-product form with a product and a variant chosen. *)
Definition tee_chosen : SingleForm.State :=
  {| SingleForm.formData :=
       {| SingleForm.FormData.address1 := lit "Calle Mayor 1";
          SingleForm.FormData.city := lit "Madrid";
          SingleForm.FormData.firstName := lit "Ana";
          SingleForm.FormData.lastName := lit "Ruiz";
          SingleForm.FormData.phone := lit "+34600000000";
          SingleForm.FormData.zip := lit "28013";
          SingleForm.FormData.email := lit "ana@example.com";
          SingleForm.FormData.product := Product.id Sample.tee;
          SingleForm.FormData.variant := Variant.id Sample.tee_variant |};
     SingleForm.isSubmitting := false;
     SingleForm.error := None;
     SingleForm.success_shown := false |}.

(** A place whose route has an empty name. *)
Definition unnamed_route : AddressAutocomplete.Place :=
  {| AddressAutocomplete.address_components :=
       Some [ Sample.component (lit "") [ lit "route" ];
              Sample.component (lit "5") [ lit "street_number" ] ];
     AddressAutocomplete.formatted_address := Some (lit "5, Madrid");
     AddressAutocomplete.name := None |}.

End Cases.

(** * Properties *)

(** ** Strings *)

Section Strings.
Import JS.

Lemma str_eqb_eq (a b : jsstring) : str_eqb a b = true <-> a = b.
Proof.
  revert b; induction a as [|x a IH]; intros [|y b]; simpl;
    try (split; [discriminate | congruence]); try tauto.
  rewrite andb_true_iff, N.eqb_eq, IH.
  split; [intros [-> ->]; reflexivity | intros [= -> ->]; auto].
Qed.

Lemma str_eqb_neq (a b : jsstring) : str_eqb a b = false <-> a <> b.
Proof.
  rewrite <- str_eqb_eq. destruct (str_eqb a b); split; congruence.
Qed.

Lemma latin1b_ok (s : jsstring) : latin1b s = true -> latin1 s.
Proof.
  unfold latin1b, latin1. rewrite forallb_forall, Forall_forall.
  intros H c Hc. apply N.ltb_lt; auto.
Qed.

Lemma below_256_listed (c : N) :
  (c < 256)%N -> In c (map N.of_nat (seq 0 256)).
Proof.
  intros Hc. apply in_map_iff. exists (N.to_nat c). split.
  - apply N2Nat.id.
  - apply in_seq. lia.
Qed.

(** Decomposing a Latin-1 string and dropping the marks stays in
    Latin-1. *)
Lemma strip_nfd_unit_latin1 (c : N) :
  (c < 256)%N -> latin1 (Queries.strip_marks (nfd_unit c)).
Proof.
  intros Hc. apply latin1b_ok.
  assert (Hall : forallb (fun c => latin1b (Queries.strip_marks (nfd_unit c)))
                   (map N.of_nat (seq 0 256)) = true) by (vm_compute; reflexivity).
  rewrite forallb_forall in Hall. apply Hall, below_256_listed, Hc.
Qed.

Lemma strip_marks_app (a b : jsstring) :
  Queries.strip_marks (a ++ b) = Queries.strip_marks a ++ Queries.strip_marks b.
Proof. apply filter_app. Qed.

Lemma strip_nfd_latin1 (s : jsstring) :
  latin1 s -> latin1 (Queries.strip_marks (nfd_latin1 s)).
Proof.
  unfold latin1. induction 1 as [|c s Hc Hs IH]; simpl.
  - constructor.
  - rewrite strip_marks_app. apply Forall_app. split; [|exact IH].
    apply strip_nfd_unit_latin1, Hc.
Qed.

End Strings.

(** ** Province codes *)

Section ProvinceCodes.
Import JS Queries.

(** The lookup under the Latin-1 tables, for running it. *)
Let normalized1 := @normalized latin1_runtime.
Let find_code1 := @find_code latin1_runtime.

Context {R : Runtime}.

Lemma find_code_some (n : jsstring) entries code :
  find_code n entries = Some code ->
  exists name, In (name, code) entries /\ normalized name = n.
Proof.
  induction entries as [|[name c] rest IH]; simpl; [discriminate|].
  destruct (str_eqb (normalized name) n) eqn:E.
  - intros [= <-]. exists name. split; [left; reflexivity|].
    apply str_eqb_eq, E.
  - intros H. destruct (IH H) as (name' & Hin & Hn).
    exists name'. split; [right; exact Hin | exact Hn].
Qed.

Lemma find_code_none (n : jsstring) entries :
  (forall name code, In (name, code) entries -> normalized name <> n) ->
  find_code n entries = None.
Proof.
  induction entries as [|[name c] rest IH]; simpl; intros H; [reflexivity|].
  assert (E : str_eqb (normalized name) n = false).
  { apply str_eqb_neq, (H name c). left; reflexivity. }
  rewrite E. apply IH. intros name' code' Hin. apply (H name' code').
  right; exact Hin.
Qed.

Hypothesis unicode : unicode_on_latin1 R.

Lemma normalized_latin1 (s : jsstring) :
  latin1 s -> normalized s = normalized1 s.
Proof.
  intros Hs. destruct unicode as [Hnfd Hup].
  unfold normalized1, normalized. rewrite (Hnfd s Hs). simpl.
  apply Hup, strip_nfd_latin1, Hs.
Qed.

Lemma find_code_latin1 (n : jsstring) entries :
  Forall (fun e => latin1 (fst e)) entries ->
  find_code n entries = find_code1 n entries.
Proof.
  induction 1 as [|[name c] rest Hname Hrest IH]; simpl; [reflexivity|].
  rewrite (normalized_latin1 name Hname), IH. reflexivity.
Qed.

Lemma table_latin1 :
  Forall (fun e => latin1 (fst e)) SPANISH_PROVINCE_CODES.
Proof.
  apply Forall_forall. intros e He. apply latin1b_ok.
  assert (Hall : forallb (fun e => latin1b (fst e)) SPANISH_PROVINCE_CODES = true)
    by (vm_compute; reflexivity).
  rewrite forallb_forall in Hall. apply Hall, He.
Qed.

(** Every entry of the table is found under its own normalized name: no
    earlier entry has the same normalized name. *)
Lemma table_entry_found name code :
  In (name, code) SPANISH_PROVINCE_CODES ->
  find_code (normalized name) SPANISH_PROVINCE_CODES = Some code.
Proof.
  intros Hin.
  assert (Hname : latin1 name).
  { pose proof table_latin1 as Ht. rewrite Forall_forall in Ht.
    apply (Ht (name, code) Hin). }
  rewrite (find_code_latin1 _ _ table_latin1), (normalized_latin1 name Hname).
  assert (Hall : forallb
            (fun e => match find_code1 (normalized1 (fst e)) SPANISH_PROVINCE_CODES with
                      | Some c => str_eqb c (snd e)
                      | None => false
                      end) SPANISH_PROVINCE_CODES = true)
    by (vm_compute; reflexivity).
  rewrite forallb_forall in Hall. specialize (Hall (name, code) Hin). cbn [fst snd] in Hall.
  destruct (find_code1 (normalized1 name) SPANISH_PROVINCE_CODES) as [c|];
    [|discriminate].
  apply str_eqb_eq in Hall. congruence.
Qed.

Lemma getProvinceCode_latin1 (s : jsstring) :
  latin1 s ->
  getProvinceCode s =
    match find_code1 (normalized1 s) SPANISH_PROVINCE_CODES with
    | Some code => code
    | None => s
    end.
Proof.
  intros Hs. unfold getProvinceCode.
  rewrite (find_code_latin1 _ _ table_latin1), (normalized_latin1 s Hs).
  reflexivity.
Qed.

(** On a Latin-1 string the code's normalization is the accent-stripped
    upper-case form. *)
Lemma plain_upper_unit (c : N) :
  (c < 256)%N ->
  upper_latin1 (strip_marks (nfd_unit c)) = upper_unit (Text.unaccent_unit c).
Proof.
  intros Hc.
  assert (Hall : forallb
            (fun c => str_eqb (upper_latin1 (strip_marks (nfd_unit c)))
                        (upper_unit (Text.unaccent_unit c)))
            (map N.of_nat (seq 0 256)) = true) by (vm_compute; reflexivity).
  rewrite forallb_forall in Hall.
  apply str_eqb_eq, Hall, below_256_listed, Hc.
Qed.

Lemma normalized_plain_upper (s : jsstring) :
  latin1 s -> normalized s = Text.plain_upper s.
Proof.
  intros Hs. rewrite (normalized_latin1 s Hs).
  unfold normalized1, normalized, Text.plain_upper. simpl.
  unfold latin1 in Hs. induction Hs as [|c rest Hc Hrest IH]; [reflexivity|].
  simpl. rewrite strip_marks_app. unfold upper_latin1 in *.
  rewrite flat_map_app, IH. f_equal. apply (plain_upper_unit c Hc).
Qed.

Lemma table_name_latin1 name code :
  In (name, code) SPANISH_PROVINCE_CODES -> latin1 name.
Proof.
  intros Hin. pose proof table_latin1 as Ht. rewrite Forall_forall in Ht.
  apply (Ht (name, code) Hin).
Qed.

(** C4, as amended: the lookup is case- and accent-insensitive for the
    names of the table. Two inputs whose common accent-stripped upper-case
    form is that of a table entry both yield that entry's code: this holds
    with the form as the code computes it, and for Latin-1 inputs with the
    form spelled out letter by letter, so that MADRID and Madrid yield M
    and the accented, unaccented, lower-case and upper-case spellings of
    Malaga all yield MA. An input whose form matches no entry is returned
    unchanged, as Atlantis is. *)
Theorem getProvinceCode_insensitive_on_table :
  (forall s1 s2 name code,
      In (name, code) SPANISH_PROVINCE_CODES ->
      normalized s1 = normalized name ->
      normalized s2 = normalized s1 ->
      getProvinceCode s1 = code /\ getProvinceCode s2 = code) /\
  (forall s1 s2 name code,
      latin1 s1 -> latin1 s2 ->
      In (name, code) SPANISH_PROVINCE_CODES ->
      Text.plain_upper s1 = Text.plain_upper name ->
      Text.plain_upper s2 = Text.plain_upper s1 ->
      getProvinceCode s1 = code /\ getProvinceCode s2 = code) /\
  getProvinceCode (lit "MADRID") = lit "M" /\
  getProvinceCode (lit "Madrid") = lit "M" /\
  getProvinceCode (lit "M" ++ 0xE1%N :: lit "laga") = lit "MA" /\
  getProvinceCode (lit "m" ++ 0xE1%N :: lit "laga") = lit "MA" /\
  getProvinceCode (lit "M" ++ 0xC1%N :: lit "LAGA") = lit "MA" /\
  getProvinceCode (lit "Malaga") = lit "MA" /\
  getProvinceCode (lit "MALAGA") = lit "MA" /\
  getProvinceCode (lit "la coru" ++ 0xF1%N :: lit "a") = lit "C" /\
  getProvinceCode (lit "LA CORUNA") = lit "C" /\
  (forall s,
      (forall name code,
          In (name, code) SPANISH_PROVINCE_CODES ->
          normalized name <> normalized s) ->
      getProvinceCode s = s) /\
  (forall s,
      latin1 s ->
      (forall name code,
          In (name, code) SPANISH_PROVINCE_CODES ->
          Text.plain_upper name <> Text.plain_upper s) ->
      getProvinceCode s = s) /\
  getProvinceCode (lit "Atlantis") = lit "Atlantis".
Proof.
  assert (Hgeneral : forall s1 s2 name code,
             In (name, code) SPANISH_PROVINCE_CODES ->
             normalized s1 = normalized name ->
             normalized s2 = normalized s1 ->
             getProvinceCode s1 = code /\ getProvinceCode s2 = code).
  { intros s1 s2 name code Hin H1 H2. unfold getProvinceCode.
    rewrite H2, H1, (table_entry_found _ _ Hin). split; reflexivity. }
  assert (Hunmatched : forall s,
             (forall name code,
                 In (name, code) SPANISH_PROVINCE_CODES ->
                 normalized name <> normalized s) ->
             getProvinceCode s = s).
  { intros s Hs. unfold getProvinceCode.
    rewrite (find_code_none _ _ Hs). reflexivity. }
  split; [exact Hgeneral|]. split.
  { intros s1 s2 name code Hs1 Hs2 Hin H1 H2.
    apply (Hgeneral s1 s2 name code Hin).
    - rewrite (normalized_plain_upper s1 Hs1),
              (normalized_plain_upper name (table_name_latin1 _ _ Hin)).
      exact H1.
    - rewrite (normalized_plain_upper s1 Hs1), (normalized_plain_upper s2 Hs2).
      exact H2. }
  repeat (split;
          [rewrite getProvinceCode_latin1 by (apply latin1b_ok; reflexivity);
           vm_compute; reflexivity|]).
  split; [exact Hunmatched|]. split.
  { intros s Hs Hnone. apply Hunmatched. intros name code Hin.
    rewrite (normalized_plain_upper s Hs),
            (normalized_plain_upper name (table_name_latin1 _ _ Hin)).
    apply (Hnone name code Hin). }
  rewrite getProvinceCode_latin1 by (apply latin1b_ok; reflexivity).
  vm_compute; reflexivity.
Qed.

End ProvinceCodes.

Lemma latin1_runtime_unicode : JS.unicode_on_latin1 JS.latin1_runtime.
Proof. split; intros s _; reflexivity. Qed.

Lemma getProvinceCode_insensitive_on_table_witness :
  JS.unicode_on_latin1 JS.latin1_runtime /\
  @Queries.getProvinceCode JS.latin1_runtime (JS.lit "MADRID") = JS.lit "M" /\
  @Queries.getProvinceCode JS.latin1_runtime
    (JS.lit "m" ++ 0xE1%N :: JS.lit "laga") = JS.lit "MA" /\
  @Queries.getProvinceCode JS.latin1_runtime (JS.lit "MALAGA") = JS.lit "MA" /\
  @Queries.getProvinceCode JS.latin1_runtime (JS.lit "Atlantis") = JS.lit "Atlantis".
Proof.
  split; [exact latin1_runtime_unicode|].
  pose proof (@getProvinceCode_insensitive_on_table JS.latin1_runtime
                latin1_runtime_unicode)
    as (_ & Hlatin & Hm & _ & _ & _ & _ & _ & _ & _ & _ & _ & _ & Ha).
  split; [exact Hm|].
  destruct (Hlatin (JS.lit "m" ++ 0xE1%N :: JS.lit "laga") (JS.lit "MALAGA")
              (JS.lit "M" ++ 0xE1%N :: JS.lit "laga") (JS.lit "MA"))
    as [Hlower Hplain].
  - apply latin1b_ok. reflexivity.
  - apply latin1b_ok. reflexivity.
  - vm_compute. do 29 right. left. reflexivity.
  - vm_compute. reflexivity.
  - vm_compute. reflexivity.
  - split; [exact Hlower|]. split; [exact Hplain | exact Ha].
Defined.

(** The claim as it is written fails off the table: ATLANTIS and Atlantis
    have the same accent-stripped upper-case form, and each is returned as
    it was given. *)
Lemma getProvinceCode_same_form_different_result :
  Text.plain_upper (JS.lit "ATLANTIS") = Text.plain_upper (JS.lit "Atlantis") /\
  @Queries.normalized JS.latin1_runtime (JS.lit "ATLANTIS") =
    @Queries.normalized JS.latin1_runtime (JS.lit "Atlantis") /\
  @Queries.getProvinceCode JS.latin1_runtime (JS.lit "ATLANTIS") = JS.lit "ATLANTIS" /\
  @Queries.getProvinceCode JS.latin1_runtime (JS.lit "Atlantis") = JS.lit "Atlantis" /\
  @Queries.getProvinceCode JS.latin1_runtime (JS.lit "ATLANTIS") <>
    @Queries.getProvinceCode JS.latin1_runtime (JS.lit "Atlantis").
Proof.
  repeat split; try (vm_compute; reflexivity).
  vm_compute. discriminate.
Qed.

(** ** The catalog *)

Section Catalog.
Import JS Net Queries.

(** The query asks for [url] and for [src: url], so a response carries
    the same text under both names. *)
Let aliased (n : ImageNode.t) : Prop := ImageNode.src n = ImageNode.url n.

Lemma with_image_images (edge : Edge ShopifyProduct) :
  Product.images (with_image edge) = Product.images (node edge).
Proof.
  unfold with_image. destruct (edges (Product.images (node edge))); reflexivity.
Qed.

Lemma with_image_src (edge : Edge ShopifyProduct) :
  exists img,
    Product.image (with_image edge) = Some img /\
    (edges (Product.images (node edge)) = [] -> Image.src img = lit "") /\
    (forall first rest,
        edges (Product.images (node edge)) = first :: rest ->
        Image.src img = ImageNode.src (node first)).
Proof.
  unfold with_image.
  destruct (edges (Product.images (node edge))) as [|first rest]; simpl;
    eexists; (split; [reflexivity|]); split; try discriminate; try reflexivity.
  intros first' rest' [= <- <-]. reflexivity.
Qed.

(** What [getProducts] does with a response. *)
Lemma getProducts_run env net log session :
  createSession env = Returned session ->
  exists req,
    snd (getProducts env net log) = log ++ [req] /\
    fst (getProducts env net log) =
      match net req with
      | Rejected => Threw FetchFailed
      | Responded response =>
          if negb (ok response) then Threw (HttpError (status response))
          else match json_body response with
               | None => Threw SyntaxError
               | Some parsed =>
                   if truthy (errors parsed) then Threw GraphQLFailed
                   else match data parsed with
                        | None => Threw TypeError
                        | Some d => Returned (map with_image (edges (products d)))
                        end
               end
      end.
Proof.
  intros Hs. unfold getProducts, bind, lift, try_catch, fetch. rewrite Hs.
  eexists. split.
  - match goal with |- context [net ?r] => destruct (net r) as [|response] end;
      simpl; [reflexivity|].
    destruct (ok response); simpl; [|reflexivity].
    unfold response_json. destruct (json_body response) as [parsed|]; simpl;
      [|reflexivity].
    destruct (truthy (errors parsed)); simpl; [reflexivity|].
    destruct (data parsed); reflexivity.
  - match goal with |- context [net ?r] => destruct (net r) as [|response] end;
      simpl; [reflexivity|].
    destruct (ok response); simpl; [|reflexivity].
    unfold response_json. destruct (json_body response) as [parsed|]; simpl;
      [|reflexivity].
    destruct (truthy (errors parsed)); simpl; [reflexivity|].
    destruct (data parsed); reflexivity.
Qed.

Lemma getProducts_unconfigured env net log :
  createSession env = Threw MissingConfig ->
  getProducts env net log = (Threw MissingConfig, log).
Proof.
  intros Hs. unfold getProducts, bind, lift. rewrite Hs. reflexivity.
Qed.

Lemma createSession_cases env :
  (exists session, createSession env = Returned session) \/
  createSession env = Threw MissingConfig.
Proof.
  unfold createSession.
  destruct (unset (NEXT_PUBLIC_ACCESS_TOKEN env) || unset (NEXT_PUBLIC_SHOP_URL env));
    [right; reflexivity | left; eexists; reflexivity].
Qed.

(** The list that [getProducts] returns is the image of the response's
    products under [with_image]. *)
Lemma getProducts_returned env net log ps :
  fst (getProducts env net log) = Returned ps ->
  exists es : list (Edge ShopifyProduct), ps = map with_image es.
Proof.
  destruct (createSession_cases env) as [[session Hs] | Hs].
  - destruct (getProducts_run env net log session Hs) as (req & _ & ->).
    destruct (net req) as [|response]; [discriminate|].
    destruct (negb (ok response)); [discriminate|].
    destruct (json_body response) as [parsed|]; [|discriminate].
    destruct (truthy (errors parsed)); [discriminate|].
    destruct (data parsed) as [d|]; [|discriminate].
    intros [= <-]. eexists; reflexivity.
  - rewrite (getProducts_unconfigured env net log Hs). discriminate.
Qed.

(** C6: every product that [getProducts] returns has an [image]; its
    [src] is the empty string when the product has no images and the
    first image's URL otherwise. *)
Theorem getProducts_image_src env net log ps :
  fst (getProducts env net log) = Returned ps ->
  forall p, In p ps ->
    exists img,
      Product.image p = Some img /\
      (edges (Product.images p) = [] -> Image.src img = lit "") /\
      (forall first rest,
          edges (Product.images p) = first :: rest ->
          Image.src img = ImageNode.src (node first) /\
          (aliased (node first) -> Image.src img = ImageNode.url (node first))).
Proof.
  intros Hret p Hp.
  destruct (getProducts_returned env net log ps Hret) as (es & ->).
  apply in_map_iff in Hp. destruct Hp as (edge & <- & _).
  destruct (with_image_src edge) as (img & Himg & Hnone & Hfirst).
  exists img. rewrite with_image_images. split; [exact Himg|].
  split; [exact Hnone|].
  intros first rest Hedges. pose proof (Hfirst first rest Hedges) as Hsrc.
  split; [exact Hsrc|]. unfold aliased. intros <-. exact Hsrc.
Qed.

End Catalog.

Lemma getProducts_image_src_witness :
  fst (Queries.getProducts Sample.configured
         (Sample.always (Sample.answer true 200 Sample.catalog_body)) []) =
    JS.Returned [ Queries.with_image {| Queries.node := Sample.tee |};
                  Queries.with_image {| Queries.node := Sample.poster |} ] /\
  exists img,
    Queries.Product.image (Queries.with_image {| Queries.node := Sample.poster |})
      = Some img /\
    Queries.Image.src img = JS.lit "https://cdn.example/poster.jpg".
Proof.
  split; [reflexivity|].
  destruct (getProducts_image_src Sample.configured
              (Sample.always (Sample.answer true 200 Sample.catalog_body)) []
              _ eq_refl
              (Queries.with_image {| Queries.node := Sample.poster |})
              (or_intror (or_introl eq_refl)))
    as (img & Himg & _ & Hfirst).
  exists img. split; [exact Himg|].
  destruct (Hfirst {| Queries.node := Sample.poster_image |} [] eq_refl)
    as [_ Hurl].
  exact (Hurl eq_refl).
Defined.

(** ** Orders *)

Section OrderSubmitter.
Import JS Net Queries.
Context {R : Runtime}.

(** What [createOrder] does once the session exists: one request, then
    the classification of the parsed body. The status of the response is
    not looked at. *)
Lemma createOrder_run env net orderData log session :
  createSession env = Returned session ->
  createOrder env net orderData log =
    (match net (order_request env session orderData) with
     | Rejected => Threw FetchFailed
     | Responded response =>
         match json_body response with
         | Some data => classify data
         | None => Threw SyntaxError
         end
     end, log ++ [order_request env session orderData]).
Proof.
  intros Hs. unfold createOrder, bind, lift, try_catch, fetch, throw.
  rewrite Hs.
  destruct (net (order_request env session orderData)) as [|response];
    [reflexivity|].
  unfold response_json. destruct (json_body response) as [data|];
    [|reflexivity].
  unfold ret. destruct (classify data); reflexivity.
Qed.

Lemma createOrder_unconfigured env net orderData log :
  createSession env = Threw MissingConfig ->
  createOrder env net orderData log = (Threw MissingConfig, log).
Proof.
  intros Hs. unfold createOrder, bind, lift. rewrite Hs. reflexivity.
Qed.

(** C9: an empty first name, last name or phone is not sent: the request
    carries Return, Return and +34608667749 in their place, in the
    billing address and in the shipping address alike. *)
Theorem createOrder_defaults_for_empty_contact env net orderData log session :
  createSession env = Returned session ->
  exists req,
    snd (createOrder env net orderData log) = log ++ [req] /\
    let billing := billingAddress (order (body req)) in
    let shipping := shippingAddress (order (body req)) in
    (OrderInput.firstName orderData = lit "" ->
       Address.firstName billing = lit "Return" /\
       Address.firstName shipping = lit "Return") /\
    (OrderInput.lastName orderData = lit "" ->
       Address.lastName billing = lit "Return" /\
       Address.lastName shipping = lit "Return") /\
    (OrderInput.phone orderData = lit "" ->
       Address.phone billing = lit "+34608667749" /\
       Address.phone shipping = lit "+34608667749").
Proof.
  intros Hs. exists (order_request env session orderData).
  rewrite (createOrder_run env net orderData log session Hs).
  split; [reflexivity|]. simpl.
  repeat split; rewrite H; reflexivity.
Qed.

End OrderSubmitter.

Lemma createOrder_defaults_for_empty_contact_witness :
  exists req,
    snd (@Queries.createOrder JS.latin1_runtime Sample.configured
           (Sample.always (Sample.answer true 200 Sample.created_response))
           (Sample.contact (JS.lit "") (JS.lit "") (JS.lit "")) []) = [req] /\
    Queries.Address.firstName
      (Queries.billingAddress (Queries.order (Net.body req))) = JS.lit "Return" /\
    Queries.Address.phone
      (Queries.shippingAddress (Queries.order (Net.body req)))
      = JS.lit "+34608667749".
Proof.
  destruct (@createOrder_defaults_for_empty_contact JS.latin1_runtime
              Sample.configured
              (Sample.always (Sample.answer true 200 Sample.created_response))
              (Sample.contact (JS.lit "") (JS.lit "") (JS.lit "")) [] _ eq_refl)
    as (req & Hlog & Hfirst & _ & Hphone).
  exists req. split; [exact Hlog|].
  split; [exact (proj1 (Hfirst eq_refl)) | exact (proj2 (Hphone eq_refl))].
Defined.

Section OrderResponse.
Import JS Net Queries.
Context {R : Runtime}.

Lemma truthy_not_null (x : json) : truthy (Some x) = true -> x <> JNull.
Proof. intros H ->. discriminate. Qed.

Lemma member_some (x : json) (k : jsstring) :
  x <> JNull -> member (Some x) k = Returned (prop x k).
Proof. destruct x; intros H; try reflexivity. congruence. Qed.

Lemma opt_member_some (x : json) (k : jsstring) :
  x <> JNull -> opt_member (Some x) k = prop x k.
Proof. destruct x; intros H; reflexivity. Qed.

(** A falsy value has no [userErrors]. *)
Lemma falsy_no_userErrors (v : option json) :
  truthy v = false -> opt_member v (lit "userErrors") = None.
Proof.
  destruct v as [[| b | z | s | items | fields]|]; simpl; try reflexivity;
    try discriminate.
Qed.

(** The logging condition is evaluated without a throw when the length
    it reads is absent or a number. *)
Lemma should_log_returns fields :
  let length :=
    opt_member
      (opt_member (opt_member (own fields (lit "data")) (lit "orderCreate"))
         (lit "userErrors")) (lit "length") in
  length = None \/ (exists z, length = Some (JNum z)) ->
  exists b, should_log (JObj fields) = Returned b.
Proof.
  intros length Hlength. unfold should_log. simpl.
  destruct (truthy (own fields (lit "errors"))); [eexists; reflexivity|].
  fold length. destruct Hlength as [-> | [z ->]]; eexists; reflexivity.
Qed.

(** The classification of a parsed JSON object. *)
Lemma classify_cases (fields : list (jsstring * json)) :
  let data := JObj fields in
  let orderResponse :=
    opt_member (opt_member (Some data) (lit "data")) (lit "orderCreate") in
  (truthy orderResponse = false ->
     classify data =
       Returned (Failure (JStr (lit "Missing orderCreate field")))) /\
  (forall orderCreate,
      orderResponse = Some orderCreate ->
      truthy (Some orderCreate) = true ->
      (forall e es,
          prop orderCreate (lit "userErrors") = Some (JArr (e :: es)) ->
          classify data = Returned (Failure (JArr (e :: es)))) /\
      (prop orderCreate (lit "userErrors") = None \/
       prop orderCreate (lit "userErrors") = Some JNull \/
       prop orderCreate (lit "userErrors") = Some (JArr []) ->
         (truthy (prop orderCreate (lit "order")) = false ->
            classify data =
              Returned (Failure (JStr (lit "Order not found in response")))) /\
         (forall created,
             prop orderCreate (lit "order") = Some created ->
             truthy (Some created) = true ->
             classify data = Returned (Success created)))).
Proof.
  intros data orderResponse.
  assert (Hdata : opt_member (Some data) (lit "data") = own fields (lit "data"))
    by reflexivity.
  split.
  - intros Hfalsy.
    destruct (should_log_returns fields) as [b Hb].
    { left. unfold orderResponse in Hfalsy. rewrite Hdata in Hfalsy.
      rewrite (falsy_no_userErrors _ Hfalsy). reflexivity. }
    unfold classify. fold data in Hb. rewrite Hb. simpl and_then.
    change (opt_member (own fields (lit "data")) (lit "orderCreate"))
        with orderResponse. rewrite Hfalsy. reflexivity.
  - intros orderCreate Hoc Htruthy.
    pose proof (truthy_not_null _ Htruthy) as Hnn.
    assert (Hchain :
              opt_member (opt_member (own fields (lit "data")) (lit "orderCreate"))
                (lit "userErrors") = prop orderCreate (lit "userErrors")).
    { unfold orderResponse in Hoc. rewrite Hdata in Hoc. rewrite Hoc.
      apply opt_member_some, Hnn. }
    split.
    + intros e es Hue.
      destruct (should_log_returns fields) as [b Hb].
      { right. rewrite Hchain, Hue. eexists; reflexivity. }
      unfold classify. fold data in Hb. rewrite Hb. simpl and_then.
      change (opt_member (own fields (lit "data")) (lit "orderCreate"))
        with orderResponse. rewrite Hoc, Htruthy. simpl negb. cbv iota.
      rewrite (member_some _ _ Hnn), Hue. reflexivity.
    + intros Hnone.
      destruct (should_log_returns fields) as [b Hb].
      { rewrite Hchain.
        destruct Hnone as [-> | [-> | ->]];
          [left | left | right; eexists]; reflexivity. }
      assert (Hrest :
                classify data =
                  match prop orderCreate (lit "order") with
                  | Some created =>
                      if truthy (prop orderCreate (lit "order"))
                      then Returned (Success created)
                      else Returned
                             (Failure (JStr (lit "Order not found in response")))
                  | None =>
                      Returned (Failure (JStr (lit "Order not found in response")))
                  end).
      { unfold classify. fold data in Hb. rewrite Hb. simpl and_then.
        change (opt_member (own fields (lit "data")) (lit "orderCreate"))
        with orderResponse. rewrite Hoc, Htruthy. simpl negb. cbv iota.
        rewrite !(member_some _ _ Hnn).
        destruct Hnone as [-> | [-> | ->]]; simpl;
          destruct (prop orderCreate (lit "order")); reflexivity. }
      split.
      * intros Hmissing. rewrite Hrest.
        destruct (prop orderCreate (lit "order")); [rewrite Hmissing|];
          reflexivity.
      * intros created Hcreated Hpresent. rewrite Hrest, Hcreated, Hpresent.
        reflexivity.
Qed.

(** C3: a parsed response of the order mutation, a JSON object, is
    classified by [createOrder] and nothing is thrown. Without an
    [orderCreate] the result is a failure with a message; with a
    non-empty [userErrors] list it is a failure carrying that list; with
    no user errors it is a failure with a message when [order] is
    missing, and otherwise a success carrying the order. *)
Theorem createOrder_classifies_response
    env net orderData log session response fields :
  createSession env = Returned session ->
  net (order_request env session orderData) = Responded response ->
  json_body response = Some (JObj fields) ->
  let result := fst (createOrder env net orderData log) in
  let orderResponse :=
    opt_member (opt_member (Some (JObj fields)) (lit "data"))
      (lit "orderCreate") in
  (truthy orderResponse = false ->
     result = Returned (Failure (JStr (lit "Missing orderCreate field")))) /\
  (forall orderCreate,
      orderResponse = Some orderCreate ->
      truthy (Some orderCreate) = true ->
      (forall e es,
          prop orderCreate (lit "userErrors") = Some (JArr (e :: es)) ->
          result = Returned (Failure (JArr (e :: es)))) /\
      (prop orderCreate (lit "userErrors") = None \/
       prop orderCreate (lit "userErrors") = Some JNull \/
       prop orderCreate (lit "userErrors") = Some (JArr []) ->
         (truthy (prop orderCreate (lit "order")) = false ->
            result =
              Returned (Failure (JStr (lit "Order not found in response")))) /\
         (forall created,
             prop orderCreate (lit "order") = Some created ->
             truthy (Some created) = true ->
             result = Returned (Success created)))).
Proof.
  intros Hs Hnet Hbody result orderResponse.
  assert (Hresult : result = classify (JObj fields)).
  { unfold result.
    rewrite (createOrder_run env net orderData log session Hs), Hnet, Hbody.
    reflexivity. }
  rewrite Hresult. apply classify_cases.
Qed.

(** C2, on the code: [getProducts] throws when the response is not ok,
    whatever its body. [createOrder] does not look at the status: a
    response that is not ok and whose body parses is classified like any
    other, and with an empty object as its body the call returns a
    failure result. *)
Theorem createOrder_returns_on_http_failure :
  (forall status body log,
      fst (getProducts Sample.configured
             (Sample.always {| ok := false; status := status; json_body := body |})
             log) = Threw (HttpError status)) /\
  (forall status data orderData log,
      fst (createOrder Sample.configured
             (Sample.always (Sample.answer false status data)) orderData log)
      = classify data) /\
  (forall orderData log,
      fst (createOrder Sample.configured
             (Sample.always (Sample.answer false 500 (JObj []))) orderData log)
      = Returned (Failure (JStr (lit "Missing orderCreate field")))).
Proof.
  split; [|split].
  - intros status body log.
    destruct (getProducts_run Sample.configured
                (Sample.always {| ok := false; status := status; json_body := body |})
                log _ eq_refl) as (req & _ & ->).
    reflexivity.
  - intros status data orderData log.
    rewrite (createOrder_run Sample.configured _ orderData log _ eq_refl).
    reflexivity.
  - intros orderData log.
    rewrite (createOrder_run Sample.configured _ orderData log _ eq_refl).
    reflexivity.
Qed.

End OrderResponse.

Lemma createOrder_classifies_response_witness :
  fst (@Queries.createOrder JS.latin1_runtime Sample.configured
         (Sample.always (Sample.answer true 200 Sample.rejected_response))
         (Sample.contact (JS.lit "Ana") (JS.lit "Ruiz") (JS.lit "+34600000000")) [])
    = JS.Returned (Queries.Failure (JS.JArr [ Sample.user_error ])) /\
  fst (@Queries.createOrder JS.latin1_runtime Sample.configured
         (Sample.always (Sample.answer true 200 Sample.created_response))
         (Sample.contact (JS.lit "Ana") (JS.lit "Ruiz") (JS.lit "+34600000000")) [])
    = JS.Returned (Queries.Success Sample.created_order).
Proof.
  split.
  - destruct (@createOrder_classifies_response JS.latin1_runtime
                Sample.configured
                (Sample.always (Sample.answer true 200 Sample.rejected_response))
                (Sample.contact (JS.lit "Ana") (JS.lit "Ruiz")
                   (JS.lit "+34600000000"))
                [] _ _ _ eq_refl eq_refl eq_refl) as [_ Hcases].
    destruct (Hcases _ eq_refl eq_refl) as [Herrors _].
    exact (Herrors _ _ eq_refl).
  - destruct (@createOrder_classifies_response JS.latin1_runtime
                Sample.configured
                (Sample.always (Sample.answer true 200 Sample.created_response))
                (Sample.contact (JS.lit "Ana") (JS.lit "Ruiz")
                   (JS.lit "+34600000000"))
                [] _ _ _ eq_refl eq_refl eq_refl) as [_ Hcases].
    destruct (Hcases _ eq_refl eq_refl) as [_ Hnone].
    destruct (Hnone (or_intror (or_intror eq_refl))) as [_ Hcreated].
    exact (Hcreated _ eq_refl eq_refl).
Defined.


(** ** The cart *)

Section CartLists.
Import JS OrderForm.
Local Open Scope Z_scope.
Context {A : Type}.
Variable p : A -> bool.
Variable f : A -> A.

Lemma findIndex_from_none (i : Z) (xs : list A) :
  find p xs = None -> findIndex_from p i xs = -1.
Proof.
  revert i; induction xs as [|x rest IH]; intros i; simpl; [reflexivity|].
  destruct (p x); [discriminate | apply IH].
Qed.

Lemma findIndex_from_some (i : Z) (xs : list A) (x : A) :
  find p xs = Some x -> i <= findIndex_from p i xs.
Proof.
  revert i; induction xs as [|y rest IH]; intros i; simpl; [discriminate|].
  destruct (p y); [lia|]. intros H. specialize (IH (i + 1) H). lia.
Qed.

(** Past the index nothing is touched. *)
Lemma mapi_from_past (k i : Z) (xs : list A) :
  k < i ->
  mapi_from (fun x index => if index =? k then f x else x) i xs = xs.
Proof.
  revert i; induction xs as [|x rest IH]; intros i Hk; simpl; [reflexivity|].
  replace (i =? k) with false by (symmetry; apply Z.eqb_neq; lia).
  rewrite IH by lia. reflexivity.
Qed.

Lemma mapi_at_findIndex (i : Z) (xs : list A) (x : A) :
  find p xs = Some x ->
  mapi_from (fun y index => if index =? findIndex_from p i xs then f y else y)
    i xs = update_first p f xs.
Proof.
  revert i; induction xs as [|y rest IH]; intros i; simpl; [discriminate|].
  destruct (p y) eqn:Hy.
  - intros _. rewrite Z.eqb_refl, mapi_from_past by lia. reflexivity.
  - intros H. pose proof (findIndex_from_some (i + 1) rest x H) as Hle.
    replace (i =? findIndex_from p (i + 1) rest) with false
      by (symmetry; apply Z.eqb_neq; lia).
    rewrite (IH (i + 1) H). reflexivity.
Qed.

Lemma Forall_update_first (P : A -> Prop) (xs : list A) :
  Forall P xs ->
  (forall x, find p xs = Some x -> P (f x)) ->
  Forall P (update_first p f xs).
Proof.
  induction 1 as [|y rest Hy Hrest IH]; simpl; intros Hf; [constructor|].
  destruct (p y) eqn:E.
  - constructor; [apply Hf; reflexivity | exact Hrest].
  - constructor; [exact Hy | apply IH, Hf].
Qed.

End CartLists.

Section CartInvariant.
Import JS Queries OrderForm.
Local Open Scope Z_scope.

Variable products : list ShopifyProduct.
Hypothesis unique : variant_ids_unique products.

(** What holds of every line of a reachable cart: a positive quantity
    within stock, for a variant of the catalog filed under its own id. *)
Let sound (item : CartItem.t) : Prop :=
  0 < CartItem.quantity item /\
  within_stock item /\
  CartItem.variantId item = Variant.id (CartItem.variant item) /\
  exists product, offered products product (CartItem.variant item).

Let has_id (variantId : jsstring) (item : CartItem.t) : bool :=
  str_eqb (CartItem.variantId item) variantId.

(** Two sound lines with the same id hold the same variant. *)
Lemma same_id_same_variant (a b : CartItem.t) :
  sound a -> sound b -> CartItem.variantId a = CartItem.variantId b ->
  CartItem.variant a = CartItem.variant b.
Proof.
  intros (_ & _ & Ha & pa & Hpa) (_ & _ & Hb & pb & Hpb) Hid.
  apply (unique pa _ pb _ Hpa Hpb). congruence.
Qed.

Lemma addToCart_sound product variant quantity st :
  offered products product variant -> 0 < quantity ->
  Forall sound (cartItems st) ->
  Forall sound (cartItems (addToCart product variant quantity st)).
Proof.
  intros Hoffered Hpos Hst. unfold addToCart.
  destruct (find (fun item => str_eqb (CartItem.variantId item) (Variant.id variant))
              (cartItems st)) as [existing|] eqn:Hfind.
  - destruct (CartItem.quantity existing + quantity >? Variant.inventoryQuantity variant)
      eqn:Hcheck; [exact Hst|].
    pose proof (findIndex_from_some _ 0 _ _ Hfind) as Hindex.
    unfold findIndex.
    replace (findIndex_from _ 0 (cartItems st) >=? 0) with true
      by (symmetry; apply Z.geb_le; exact Hindex).
    simpl. unfold mapi. rewrite (mapi_at_findIndex _ _ 0 _ _ Hfind).
    apply Forall_update_first; [exact Hst|].
    intros x Hx. rewrite Hfind in Hx. injection Hx as <-.
    apply find_some in Hfind. destruct Hfind as [Hin Hid].
    apply str_eqb_eq in Hid.
    rewrite Forall_forall in Hst. destruct (Hst _ Hin) as (Hq & Hw & Hv & pe & Hpe).
    assert (Hsame : CartItem.variant existing = variant).
    { apply (unique pe _ product _ Hpe Hoffered). congruence. }
    rewrite Z.gtb_ltb in Hcheck. apply Z.ltb_ge in Hcheck.
    unfold sound, within_stock. simpl. rewrite Hsame.
    repeat split; try lia; try congruence.
    exists product. exact Hoffered.
  - destruct (0 + quantity >? Variant.inventoryQuantity variant) eqn:Hcheck;
      [exact Hst|].
    unfold findIndex. rewrite (findIndex_from_none _ 0 _ Hfind). simpl.
    apply Forall_app. split; [exact Hst|]. constructor; [|constructor].
    rewrite Z.gtb_ltb in Hcheck. apply Z.ltb_ge in Hcheck.
    unfold sound, within_stock. simpl. repeat split; try lia.
    exists product. exact Hoffered.
Qed.

Lemma removeFromCart_sound variantId st :
  Forall sound (cartItems st) ->
  Forall sound (cartItems (removeFromCart variantId st)).
Proof.
  intros Hst. simpl. rewrite Forall_forall in *. intros item Hin.
  apply filter_In in Hin. apply Hst, Hin.
Qed.

Lemma updateQuantity_sound variantId quantity st :
  Forall sound (cartItems st) ->
  Forall sound (cartItems (updateQuantity variantId quantity st)).
Proof.
  intros Hst. unfold updateQuantity.
  destruct (quantity <=? 0) eqn:Hq; [apply removeFromCart_sound, Hst|].
  apply Z.leb_gt in Hq.
  destruct (find (fun item => str_eqb (CartItem.variantId item) variantId)
              (cartItems st)) as [found|] eqn:Hfind.
  - destruct (quantity >? Variant.inventoryQuantity (CartItem.variant found))
      eqn:Hcheck; [exact Hst|].
    rewrite Z.gtb_ltb in Hcheck. apply Z.ltb_ge in Hcheck.
    apply find_some in Hfind. destruct Hfind as [Hfound Hid].
    apply str_eqb_eq in Hid. simpl.
    rewrite Forall_forall in *. intros item Hin.
    apply in_map_iff in Hin. destruct Hin as (old & <- & Hold).
    destruct (str_eqb (CartItem.variantId old) variantId) eqn:Hsame;
      [|apply Hst, Hold].
    apply str_eqb_eq in Hsame.
    pose proof (same_id_same_variant old found (Hst _ Hold) (Hst _ Hfound)) as Hv.
    destruct (Hst _ Hold) as (_ & _ & Hown & Hcat).
    unfold sound, within_stock. simpl.
    rewrite Hv by congruence. rewrite Hv in Hown, Hcat by congruence.
    repeat split; try lia; assumption.
  - simpl. rewrite Forall_forall in *. intros item Hin.
    apply in_map_iff in Hin. destruct Hin as (old & <- & Hold).
    rewrite (find_none _ _ Hfind old Hold). apply Hst, Hold.
Qed.

Lemma reachable_sound st :
  reachable products st -> Forall sound (cartItems st).
Proof.
  induction 1 as [| product variant quantity st _ IH Hoffered Hpos
                  | variantId quantity st _ IH
                  | variantId st _ IH].
  - constructor.
  - apply addToCart_sound; assumption.
  - apply updateQuantity_sound, IH.
  - apply removeFromCart_sound, IH.
Qed.

(** C5: in every state reached from the empty cart by [addToCart],
    [updateQuantity] and [removeFromCart], each line's quantity is at
    most the stock of its variant; an [addToCart] or an [updateQuantity]
    that would go over the stock sets the error and leaves the cart as it
    was. *)
Theorem cart_within_stock :
  (forall st,
      reachable products st -> Forall within_stock (cartItems st)) /\
  (forall st product variant quantity,
      currentQuantity (Variant.id variant) st + quantity
        > Variant.inventoryQuantity variant ->
      cartItems (addToCart product variant quantity st) = cartItems st /\
      error (addToCart product variant quantity st)
        = Some (CannotAdd quantity
                  (Variant.inventoryQuantity variant
                   - currentQuantity (Variant.id variant) st))) /\
  (forall st variantId quantity item,
      reachable products st ->
      find (has_id variantId) (cartItems st) = Some item ->
      quantity > Variant.inventoryQuantity (CartItem.variant item) ->
      cartItems (updateQuantity variantId quantity st) = cartItems st /\
      error (updateQuantity variantId quantity st)
        = Some (CannotSet quantity
                  (Variant.inventoryQuantity (CartItem.variant item)))).
Proof.
  split; [|split].
  - intros st Hst. apply reachable_sound in Hst.
    rewrite Forall_forall in *. intros item Hin. apply (Hst item Hin).
  - intros st product variant quantity Hover.
    unfold addToCart, currentQuantity in *.
    destruct (find _ (cartItems st)) as [existing|];
      (replace (_ + quantity >? Variant.inventoryQuantity variant) with true
        by (symmetry; apply Z.gtb_lt; lia));
      split; reflexivity.
  - intros st variantId quantity item Hst Hfind Hover.
    apply reachable_sound in Hst. rewrite Forall_forall in Hst.
    destruct (find_some _ _ Hfind) as [Hin _].
    destruct (Hst item Hin) as (Hpos & Hwithin & _).
    unfold within_stock in Hwithin. unfold updateQuantity.
    replace (quantity <=? 0) with false by (symmetry; apply Z.leb_gt; lia).
    unfold has_id in Hfind. rewrite Hfind.
    replace (quantity >? Variant.inventoryQuantity (CartItem.variant item))
      with true by (symmetry; apply Z.gtb_lt; lia).
    split; reflexivity.
Qed.

End CartInvariant.

Section CartRemoval.
Import JS Queries OrderForm.
Local Open Scope Z_scope.

(** C10: [updateQuantity] with a quantity of zero or less is
    [removeFromCart]: the lines of that variant leave the cart, the
    others stay, and nothing is rejected or clamped. *)
Theorem updateQuantity_nonpositive_removes st variantId quantity :
  quantity <= 0 ->
  updateQuantity variantId quantity st = removeFromCart variantId st /\
  (forall item,
      In item (cartItems (updateQuantity variantId quantity st)) <->
      In item (cartItems st) /\ CartItem.variantId item <> variantId) /\
  error (updateQuantity variantId quantity st) = error st.
Proof.
  intros Hq. unfold updateQuantity.
  replace (quantity <=? 0) with true by (symmetry; apply Z.leb_le; exact Hq).
  split; [reflexivity|]. split; [|reflexivity].
  intros item. simpl. rewrite filter_In, negb_true_iff, str_eqb_neq. tauto.
Qed.

End CartRemoval.

Lemma sample_catalog_unique : OrderForm.variant_ids_unique [ Sample.tee ].
Proof.
  intros p1 v1 p2 v2 [Hp1 Hv1] [Hp2 Hv2] _.
  destruct Hp1 as [<- | []]. destruct Hp2 as [<- | []].
  destruct Hv1 as [<- | []]. destruct Hv2 as [<- | []]. reflexivity.
Qed.

Lemma sample_offered : OrderForm.offered [ Sample.tee ] Sample.tee Sample.tee_variant.
Proof. split; left; reflexivity. Qed.

(** The scenario of the specification: one variant with three in stock;
    two are added, two more are refused, the cart stays at two. *)
Lemma cart_within_stock_witness :
  let st := OrderForm.addToCart Sample.tee Sample.tee_variant 2 OrderForm.initial in
  OrderForm.reachable [ Sample.tee ] st /\
  OrderForm.getTotalItems st = 2%Z /\
  Forall OrderForm.within_stock (OrderForm.cartItems st) /\
  OrderForm.cartItems (OrderForm.addToCart Sample.tee Sample.tee_variant 2 st)
    = OrderForm.cartItems st /\
  OrderForm.cartItems
    (OrderForm.updateQuantity (Queries.Variant.id Sample.tee_variant) 4 st)
    = OrderForm.cartItems st.
Proof.
  intros st.
  assert (Hst : OrderForm.reachable [ Sample.tee ] st).
  { apply OrderForm.reach_add;
      [apply OrderForm.reach_initial | exact sample_offered | reflexivity]. }
  destruct (cart_within_stock [ Sample.tee ] sample_catalog_unique)
    as (Hinv & Hadd & Hupdate).
  split; [exact Hst|]. split; [reflexivity|]. split; [exact (Hinv st Hst)|].
  split.
  - exact (proj1 (Hadd st Sample.tee Sample.tee_variant 2%Z eq_refl)).
  - exact (proj1 (Hupdate st (Queries.Variant.id Sample.tee_variant) 4%Z _
                    Hst eq_refl eq_refl)).
Defined.

Lemma updateQuantity_nonpositive_removes_witness :
  let st := OrderForm.addToCart Sample.tee Sample.tee_variant 1 OrderForm.initial in
  OrderForm.getTotalItems st = 1%Z /\
  OrderForm.cartItems
    (OrderForm.updateQuantity (Queries.Variant.id Sample.tee_variant) 0 st) = [].
Proof.
  intros st. split; [reflexivity|].
  rewrite (proj1 (updateQuantity_nonpositive_removes st
                    (Queries.Variant.id Sample.tee_variant) 0%Z (Z.le_refl 0))).
  reflexivity.
Defined.

(** ** Submitting the cart *)

Section SubmitCart.
Import JS Net Queries OrderForm.
Context {R : Runtime}.

(** C1, on the code: submitting a cart that is not empty sends one
    request, and its line items are one unit of no variant whatever the
    cart holds, because [createOrder] reads [variantId], which the cart
    form does not set, and never reads [lineItems]. For the cart of the
    specification's scenario, two units of one variant, the request does
    not carry that variant with quantity two. *)
Theorem handleSubmit_ignores_cart_lines :
  (forall net st item rest,
      map (fun req => lineItems (order (body req)))
        (snd (handleSubmit Sample.configured net
                (setCartItems (fun _ => item :: rest) st) []))
      = [ [ {| LineItem.variantId := None;
               LineItem.quantity := 1;
               LineItem.requiresShipping := true |} ] ]) /\
  (forall net,
      let st := addToCart Sample.tee Sample.tee_variant 2 OrderForm.initial in
      getTotalItems st = 2%Z /\
      OrderInput.lineItems (orderData_of st)
        = Some [ {| CartLine.variantId := Variant.id Sample.tee_variant;
                    CartLine.quantity := 2 |} ] /\
      map (fun req => lineItems (order (body req)))
        (snd (handleSubmit Sample.configured net st []))
      = [ [ {| LineItem.variantId := None;
               LineItem.quantity := 1;
               LineItem.requiresShipping := true |} ] ]).
Proof.
  assert (Hgeneral : forall net st item rest,
             snd (handleSubmit Sample.configured net
                    (setCartItems (fun _ => item :: rest) st) [])
             = [ order_request Sample.configured
                   [ (lit "X-Shopify-Access-Token", lit "shpat_token");
                     (lit "Content-Type", lit "application/json") ]
                   (orderData_of (setCartItems (fun _ => item :: rest) st)) ]).
  { intros net st item rest. unfold handleSubmit.
    change (cartItems (setCartItems (fun _ => item :: rest) st))
      with (item :: rest) at 1.
    cbv beta iota. unfold bind, try_catch, ret. cbv beta.
    rewrite (createOrder_run Sample.configured net _ [] _ eq_refl).
    match goal with
    | |- context [match ?o with Returned _ => _ | Threw _ => _ end] => destruct o
    end; reflexivity. }
  split.
  - intros net st item rest. rewrite Hgeneral. reflexivity.
  - intros net st. split; [reflexivity|]. split; [reflexivity|].
    change st with (setCartItems (fun _ => cartItems st) st).
    unfold st at 1. simpl cartItems.
    rewrite Hgeneral. reflexivity.
Qed.

End SubmitCart.

(** ** The script loader *)

Section ScriptLoader.
Import AddressAutocomplete.

(** What every page of a run satisfies: at most one script was appended,
    and none before the first call. *)
Let tidy (pg : Page) : Prop :=
  (List.length (injected pg) <= 1)%nat /\
  (scriptLoadPromise pg = None ->
   injected pg = [] /\ isScriptLoaded pg = false).

Lemma fire_length k scripts p scripts' :
  fire k scripts = Some (p, scripts') ->
  List.length scripts' = List.length scripts.
Proof.
  revert k p scripts'.
  induction scripts as [|s rest IH]; intros [|k] p scripts'; simpl;
    try discriminate.
  - destruct (fired s); [discriminate|]. intros [= _ <-]. reflexivity.
  - destruct (fire k rest) as [[q rest']|] eqn:E; [|discriminate].
    intros [= _ <-]. simpl. rewrite (IH _ _ _ E). reflexivity.
Qed.

Lemma fire_nil k : fire k [] = None.
Proof. destruct k; reflexivity. Qed.

Lemma call_tidy pg : tidy pg -> tidy (fst (loadGoogleMapsScript pg)).
Proof.
  intros [Hone Hnone]. unfold loadGoogleMapsScript.
  destruct (isScriptLoaded pg) eqn:Hflag.
  - split; [exact Hone|]. simpl. intros Hp.
    destruct (Hnone Hp) as [_ Hfalse]. congruence.
  - destruct (scriptLoadPromise pg) as [p|] eqn:Hp.
    + unfold tidy. simpl. split; [exact Hone|]. rewrite Hp. discriminate.
    + destruct (Hnone eq_refl) as [Hempty _].
      unfold existingScript. rewrite Hempty.
      destruct (foreign_script pg); split; simpl; try discriminate; auto.
Qed.

Lemma step_tidy pg e : tidy pg -> tidy (fst (step pg e)).
Proof.
  intros Hpg. destruct e as [|k|k|]; simpl.
  - pose proof (call_tidy pg Hpg) as H.
    destruct (loadGoogleMapsScript pg). exact H.
  - destruct (fire k (injected pg)) as [[p scripts]|] eqn:E; [|exact Hpg].
    destruct Hpg as [Hone Hnone]. split; simpl.
    + rewrite (fire_length _ _ _ _ E). exact Hone.
    + intros Hp. destruct (Hnone Hp) as [Hempty _].
      rewrite Hempty, fire_nil in E. discriminate.
  - destruct (fire k (injected pg)) as [[p scripts]|] eqn:E; [|exact Hpg].
    destruct Hpg as [Hone Hnone]. split; simpl.
    + rewrite (fire_length _ _ _ _ E). exact Hone.
    + intros Hp. destruct (Hnone Hp) as [Hempty _].
      rewrite Hempty, fire_nil in E. discriminate.
  - destruct Hpg as [Hone Hnone]. split; simpl; assumption.
Qed.

(** Once a promise is cached it stays, and a call made before the flag
    is set hands it out. *)
Lemma step_cached pg e p :
  scriptLoadPromise pg = Some p ->
  scriptLoadPromise (fst (step pg e)) = Some p /\
  (forall q, snd (step pg e) = Some q -> isScriptLoaded pg = false -> q = p).
Proof.
  intros Hp. destruct e as [|k|k|]; simpl.
  - unfold loadGoogleMapsScript. rewrite Hp.
    destruct (isScriptLoaded pg); simpl; split; auto; try discriminate.
    intros q [= <-] _. reflexivity.
  - destruct (fire k (injected pg)) as [[q scripts]|]; simpl; split; auto;
      discriminate.
  - destruct (fire k (injected pg)) as [[q scripts]|]; simpl; split; auto;
      discriminate.
  - split; [exact Hp | discriminate].
Qed.

Lemma run_tidy events pg : tidy pg -> tidy (fst (run pg events)).
Proof.
  revert pg; induction events as [|e rest IH]; intros pg Hpg; simpl;
    [exact Hpg|].
  pose proof (step_tidy pg e Hpg) as Hstep.
  destruct (step pg e) as [pg' r]. specialize (IH pg' Hstep).
  destruct (run pg' rest). exact IH.
Qed.

Lemma run_cached events pg p :
  scriptLoadPromise pg = Some p ->
  scriptLoadPromise (fst (run pg events)) = Some p.
Proof.
  revert pg; induction events as [|e rest IH]; intros pg Hp; simpl;
    [exact Hp|].
  destruct (step_cached pg e p Hp) as [Hstep _].
  destruct (step pg e) as [pg' r]. specialize (IH pg' Hstep).
  destruct (run pg' rest). exact IH.
Qed.

(** The promise cached at the end of a run is the one that the first
    call returned. *)
Lemma run_first events pg first others :
  tidy pg -> scriptLoadPromise pg = None ->
  snd (run pg events) = first :: others ->
  scriptLoadPromise (fst (run pg events)) = Some first.
Proof.
  revert pg; induction events as [|e rest IH]; intros pg Hpg Hp; simpl;
    [discriminate|].
  destruct Hpg as [Hone Hnone]. destruct (Hnone Hp) as [Hempty Hflag].
  destruct e as [|k|k|]; simpl.
  - unfold loadGoogleMapsScript. rewrite Hflag, Hp.
    destruct (existingScript pg);
      match goal with
      | |- context [run ?pg' rest] =>
          pose proof (run_cached rest pg' _ eq_refl) as Hc;
          destruct (run pg' rest) as [final returned]
      end; simpl in *; intros [= <- _]; exact Hc.
  - rewrite Hempty, fire_nil. specialize (IH pg (conj Hone Hnone) Hp).
    destruct (run pg rest). exact IH.
  - rewrite Hempty, fire_nil. specialize (IH pg (conj Hone Hnone) Hp).
    destruct (run pg rest). exact IH.
  - match goal with
    | |- context [run ?pg' rest] =>
        assert (Hpg' : tidy pg') by (split; simpl; auto);
        specialize (IH pg' Hpg' Hp); destruct (run pg' rest)
    end.
    exact IH.
Qed.

(** C7: however the calls of the loader and the events of the page are
    interleaved, at most one script element is appended; a call made
    once the flag is set appends nothing and returns a promise that is
    already resolved; a call made before that, after the first one,
    changes nothing and returns the promise that the first call
    returned. *)
Theorem script_injected_at_most_once (foreign : bool) (events : list event) :
  let final := fst (run (initial foreign) events) in
  let returned := snd (run (initial foreign) events) in
  (List.length (injected final) <= 1)%nat /\
  (isScriptLoaded final = true ->
     injected (fst (loadGoogleMapsScript final)) = injected final /\
     nth_error (promises (fst (loadGoogleMapsScript final)))
       (snd (loadGoogleMapsScript final)) = Some Resolved) /\
  (forall first others,
      returned = first :: others ->
      isScriptLoaded final = false ->
      loadGoogleMapsScript final = (final, first)).
Proof.
  intros final returned.
  assert (Hinit : tidy (initial foreign)) by (split; simpl; auto).
  split; [|split].
  - apply (run_tidy events _ Hinit).
  - intros Hflag. unfold loadGoogleMapsScript. rewrite Hflag. simpl.
    split; [reflexivity|].
    rewrite nth_error_app2 by apply Nat.le_refl.
    rewrite Nat.sub_diag. reflexivity.
  - intros first others Hret Hflag.
    pose proof (run_first events _ first others Hinit eq_refl Hret) as Hc.
    fold final in Hc. unfold loadGoogleMapsScript. rewrite Hflag, Hc.
    reflexivity.
Qed.

End ScriptLoader.

Lemma script_injected_at_most_once_witness :
  let final := fst (AddressAutocomplete.run (AddressAutocomplete.initial false)
                      [ AddressAutocomplete.Call; AddressAutocomplete.Call ]) in
  List.length (AddressAutocomplete.injected final) = 1%nat /\
  AddressAutocomplete.loadGoogleMapsScript final = (final, 0%nat) /\
  let loaded := fst (AddressAutocomplete.run (AddressAutocomplete.initial false)
                       [ AddressAutocomplete.Call; AddressAutocomplete.ScriptLoaded 0 ]) in
  AddressAutocomplete.injected
    (fst (AddressAutocomplete.loadGoogleMapsScript loaded))
    = AddressAutocomplete.injected loaded.
Proof.
  split; [reflexivity|]. split.
  - exact (proj2 (proj2 (script_injected_at_most_once false
                           [ AddressAutocomplete.Call; AddressAutocomplete.Call ]))
             0%nat [ 0%nat ] eq_refl eq_refl).
  - exact (proj1 (proj1 (proj2 (script_injected_at_most_once false
                                  [ AddressAutocomplete.Call;
                                    AddressAutocomplete.ScriptLoaded 0 ]))
                    eq_refl)).
Defined.

(** ** The place that was picked *)

Section PlaceChanged.
Import JS AddressAutocomplete.

(** The street after the loop has seen the names [names], starting from
    [street]. *)
Let street_after (street : jsstring) (names : list jsstring) : jsstring :=
  fold_left
    (fun street name =>
       if str_truthy street then street ++ lit " " ++ name else name)
    names street.

Lemma includes_one (types : list jsstring) (t : jsstring) :
  existsb (includes types) [ t ] = includes types t.
Proof. simpl. apply orb_false_r. Qed.

Lemma includes_two (types : list jsstring) (t u : jsstring) :
  existsb (includes types) [ t; u ] = includes types t || includes types u.
Proof. simpl. rewrite orb_false_r. reflexivity. Qed.

Lemma names_typed_cons wanted (c : AddressComponent) rest :
  names_typed wanted (c :: rest) =
    if existsb (includes (types c)) wanted
    then long_name c :: names_typed wanted rest
    else names_typed wanted rest.
Proof.
  unfold names_typed. simpl filter.
  destruct (existsb (includes (types c)) wanted); reflexivity.
Qed.

Lemma last_cons_default {A} (x d : A) (l : list A) :
  last (x :: l) d = last l x.
Proof.
  revert x d; induction l as [|y l IH]; intros x d; [reflexivity|].
  change (last (x :: y :: l) d) with (last (y :: l) d).
  rewrite !IH. reflexivity.
Qed.

(** The loop, field by field. *)
Lemma fold_visit (components : list AddressComponent) (acc : Address) :
  fold_left visit components acc =
    {| street := street_after (street acc) (street_names components);
       city := last (city_names components) (city acc);
       zip := last (zip_names components) (zip acc) |}.
Proof.
  revert acc; induction components as [|c rest IH]; intros acc.
  - destruct acc; reflexivity.
  - simpl fold_left. rewrite IH.
    unfold street_names, city_names, zip_names.
    rewrite !names_typed_cons, !includes_two, includes_one.
    unfold visit. cbn [street city zip].
    destruct (includes (types c) (lit "route") || includes (types c) (lit "street_number"));
      destruct (includes (types c) (lit "locality")
                || includes (types c) (lit "administrative_area_level_2"));
      destruct (includes (types c) (lit "postal_code"));
      rewrite ?last_cons_default; reflexivity.
Qed.

Lemma join_cons (sep x : jsstring) (rest : list jsstring) :
  join sep (x :: rest) = x ++ flat_map (fun name => sep ++ name) rest.
Proof.
  revert x; induction rest as [|y rest IH]; intros x.
  - simpl. rewrite app_nil_r. reflexivity.
  - change (join sep (x :: y :: rest)) with (x ++ sep ++ join sep (y :: rest)).
    rewrite IH. simpl flat_map. rewrite <- app_assoc. reflexivity.
Qed.

Lemma street_after_nonempty (street : jsstring) (names : list jsstring) :
  street <> [] ->
  street_after street names
    = street ++ flat_map (fun name => lit " " ++ name) names.
Proof.
  revert street; induction names as [|name rest IH]; intros street Hs.
  - simpl. rewrite app_nil_r. reflexivity.
  - change (street_after street (name :: rest))
      with (street_after
              (if str_truthy street then street ++ lit " " ++ name else name)
              rest).
    destruct street as [|c street]; [congruence|].
    change (str_truthy (c :: street)) with true. cbv iota.
    rewrite IH by discriminate.
    simpl flat_map. rewrite <- !app_assoc. reflexivity.
Qed.

(** When the first street name is not empty the loop computes the
    space-joined names. *)
Lemma street_after_join (names : list jsstring) :
  (forall rest, names <> [] :: rest) ->
  street_after [] names = join (lit " ") names.
Proof.
  destruct names as [|name rest]; intros Hfirst; [reflexivity|].
  rewrite join_cons. simpl.
  apply (street_after_nonempty name rest). intros ->. apply (Hfirst rest).
  reflexivity.
Qed.

Lemma str_or_empty_default (s : jsstring) : str_or s (lit "") = s.
Proof. destruct s; reflexivity. Qed.

(** The loop on the street names: empty names before the first name
    that is not empty leave no trace. *)
Lemma street_after_drop (names : list jsstring) :
  street_after [] names = join (lit " ") (Text.drop_leading_empty names).
Proof.
  induction names as [|name rest IH]; [reflexivity|].
  destruct name as [|c name].
  - exact IH.
  - apply street_after_join. discriminate.
Qed.

Lemma drop_leading_empty_id (names : list jsstring) :
  (forall rest, names <> [] :: rest) -> Text.drop_leading_empty names = names.
Proof.
  destruct names as [|[|c name] rest]; intros Hfirst; try reflexivity.
  exfalso. apply (Hfirst rest). reflexivity.
Qed.

(** C8, as amended: for every place that has address components the
    callback is called, no error is raised, and it receives: as street
    the names of the route and street-number components joined by spaces
    in component order, counted from the first of these names that is
    not empty (so the plain space-joined names whenever the first one is
    not empty), or, when that gives nothing, the formatted address, or
    the empty string without one; as city the name of the last locality
    or administrative-area-level-2 component; as zip the name of the
    last postal-code component; and the empty string for a city or zip
    that is missing. *)
Theorem handlePlaceChanged_parses (place : Place)
    (components : list AddressComponent) :
  address_components place = Some components ->
  exists address,
    handlePlaceChanged place = Some address /\
    street address =
      match join (lit " ")
              (Text.drop_leading_empty (street_names components)) with
      | [] => match formatted_address place with
              | Some formatted => formatted
              | None => lit ""
              end
      | joined => joined
      end /\
    ((forall rest, street_names components <> [] :: rest) ->
     (street_names components <> [] ->
        street address = join (lit " ") (street_names components)) /\
     (street_names components = [] ->
        street address = match formatted_address place with
                         | Some formatted => formatted
                         | None => lit ""
                         end)) /\
    city address = last (city_names components) (lit "") /\
    zip address = last (zip_names components) (lit "") /\
    (city_names components = [] -> city address = lit "") /\
    (zip_names components = [] -> zip address = lit "").
Proof.
  intros Hcomponents. unfold handlePlaceChanged. rewrite Hcomponents.
  rewrite fold_visit. cbn [street city zip].
  change (street_after (lit "") (street_names components))
    with (street_after [] (street_names components)).
  rewrite street_after_drop, !str_or_empty_default.
  eexists. split; [reflexivity|]. cbn [street city zip].
  assert (Hcode :
            match formatted_address place with
            | Some formatted =>
                if negb (str_truthy
                           (join (lit " ")
                              (Text.drop_leading_empty
                                 (street_names components))))
                   && str_truthy formatted
                then formatted
                else join (lit " ")
                       (Text.drop_leading_empty (street_names components))
            | None =>
                join (lit " ")
                  (Text.drop_leading_empty (street_names components))
            end
            = match join (lit " ")
                      (Text.drop_leading_empty (street_names components)) with
              | [] => match formatted_address place with
                      | Some formatted => formatted
                      | None => lit ""
                      end
              | joined => joined
              end).
  { destruct (join (lit " ")
                (Text.drop_leading_empty (street_names components)))
      as [|c joined]; simpl.
    - destruct (formatted_address place) as [[|c formatted]|]; reflexivity.
    - destruct (formatted_address place); reflexivity. }
  rewrite Hcode. clear Hcode.
  split; [reflexivity|]. split.
  - intros Hfirst. rewrite (drop_leading_empty_id _ Hfirst). split.
    + intros Hsome.
      destruct (street_names components) as [|name rest]; [congruence|].
      rewrite join_cons.
      destruct name as [|c name]; [exfalso; apply (Hfirst rest); reflexivity|].
      reflexivity.
    + intros ->. reflexivity.
  - split; [reflexivity|]. split; [reflexivity|].
    split; intros ->; reflexivity.
Qed.

End PlaceChanged.

Lemma handlePlaceChanged_parses_witness :
  AddressAutocomplete.handlePlaceChanged Sample.calle_mayor =
    Some {| AddressAutocomplete.street := JS.lit "12 Calle Mayor";
            AddressAutocomplete.city := JS.lit "Madrid";
            AddressAutocomplete.zip := JS.lit "28013" |}.
Proof.
  destruct (handlePlaceChanged_parses Sample.calle_mayor _ eq_refl)
    as (address & Hcall & Hstreet & _ & Hcity & Hzip & _).
  rewrite Hcall. f_equal. destruct address as [street city zip].
  cbn [AddressAutocomplete.street AddressAutocomplete.city
       AddressAutocomplete.zip] in Hstreet, Hcity, Hzip.
  rewrite Hstreet, Hcity, Hzip. vm_compute. reflexivity.
Defined.

(** The claim as it is written fails when the first street name is
    empty: for a route without a name followed by the street number 5
    the names joined by spaces are a space and the 5, and the callback
    receives the 5 alone. *)
Lemma handlePlaceChanged_not_plain_join :
  AddressAutocomplete.address_components Cases.unnamed_route
    = Some [ Sample.component (JS.lit "") [ JS.lit "route" ];
             Sample.component (JS.lit "5") [ JS.lit "street_number" ] ] /\
  JS.join (JS.lit " ")
    (AddressAutocomplete.street_names
       [ Sample.component (JS.lit "") [ JS.lit "route" ];
         Sample.component (JS.lit "5") [ JS.lit "street_number" ] ])
    = JS.lit " 5" /\
  AddressAutocomplete.handlePlaceChanged Cases.unnamed_route
    = Some {| AddressAutocomplete.street := JS.lit "5";
              AddressAutocomplete.city := JS.lit "";
              AddressAutocomplete.zip := JS.lit "" |} /\
  JS.lit "5" <> JS.lit " 5".
Proof.
  repeat split; try (vm_compute; reflexivity).
  vm_compute. discriminate.
Qed.

(** * Further properties *)

(** ** Configuration and requests *)

Section Requests.
Import JS Net Queries.
Context {R : Runtime}.

(** X1: when the access token or the shop URL is unset or empty, both
    backend calls throw the configuration error and send nothing. *)
Theorem missing_config_sends_nothing env :
  unset (NEXT_PUBLIC_ACCESS_TOKEN env) || unset (NEXT_PUBLIC_SHOP_URL env) = true ->
  (forall net log, getProducts env net log = (Threw MissingConfig, log)) /\
  (forall net orderData log,
      createOrder env net orderData log = (Threw MissingConfig, log)).
Proof.
  intros Hunset.
  assert (Hs : createSession env = Threw MissingConfig).
  { unfold createSession. rewrite Hunset. reflexivity. }
  split.
  - intros net log. apply getProducts_unconfigured, Hs.
  - intros net orderData log. apply createOrder_unconfigured, Hs.
Qed.

(** X2: with both settings present each backend call sends exactly one
    POST request, to the shop's GraphQL endpoint and with the token in
    its headers, whatever the backend answers: nothing is retried. *)
Theorem configured_sends_one_request env token shop :
  NEXT_PUBLIC_ACCESS_TOKEN env = Some token -> token <> [] ->
  NEXT_PUBLIC_SHOP_URL env = Some shop -> shop <> [] ->
  (forall net log,
      exists req,
        snd (getProducts env net log) = log ++ [req] /\
        url req = shop ++ lit "/admin/api/graphql.json" /\
        method req = lit "POST" /\
        In (lit "X-Shopify-Access-Token", token) (headers req)) /\
  (forall net orderData log,
      exists req,
        snd (createOrder env net orderData log) = log ++ [req] /\
        url req = shop ++ lit "/admin/api/2025-01/graphql.json" /\
        method req = lit "POST" /\
        In (lit "X-Shopify-Access-Token", token) (headers req)).
Proof.
  intros Htoken Hnonempty Hshop Hshop_nonempty.
  assert (Hs : createSession env =
               Returned [ (lit "X-Shopify-Access-Token", token);
                          (lit "Content-Type", lit "application/json") ]).
  { unfold createSession. rewrite Htoken, Hshop.
    destruct token; [congruence|]. destruct shop; [congruence|]. reflexivity. }
  split.
  - intros net log. unfold getProducts, bind, lift, try_catch, fetch.
    rewrite Hs, Hshop. eexists. split.
    + match goal with |- context [net ?r] => destruct (net r) as [|response] end;
        simpl; [reflexivity|].
      destruct (ok response); simpl; [|reflexivity].
      unfold response_json. destruct (json_body response) as [parsed|]; simpl;
        [|reflexivity].
      destruct (truthy (errors parsed)); simpl; [reflexivity|].
      destruct (data parsed); reflexivity.
    + simpl. repeat split. left; reflexivity.
  - intros net orderData log. eexists.
    rewrite (createOrder_run env net orderData log _ Hs). split; [reflexivity|].
    unfold order_request. simpl. rewrite Hshop. repeat split. left; reflexivity.
Qed.

(** X3: what [getProducts] does with a response, in the order in which
    the code tests it: a response that is not ok throws the HTTP error
    whatever its body; an ok response with GraphQL errors throws even
    when it also carries data; without errors and without data the read
    of [data.products] throws. *)
Theorem getProducts_failure_order env session log :
  createSession env = Returned session ->
  fst (getProducts env (fun _ => Rejected) log) = Threw FetchFailed /\
  (forall response,
      ok response = false ->
      fst (getProducts env (fun _ => Responded response) log)
        = Threw (HttpError (status response))) /\
  (forall response,
      ok response = true -> json_body response = None ->
      fst (getProducts env (fun _ => Responded response) log)
        = Threw SyntaxError) /\
  (forall response parsed,
      ok response = true -> json_body response = Some parsed ->
      truthy (errors parsed) = true ->
      fst (getProducts env (fun _ => Responded response) log)
        = Threw GraphQLFailed) /\
  (forall response parsed,
      ok response = true -> json_body response = Some parsed ->
      truthy (errors parsed) = false -> data parsed = None ->
      fst (getProducts env (fun _ => Responded response) log)
        = Threw TypeError).
Proof.
  intros Hs.
  split; [|split; [|split; [|split]]].
  - destruct (getProducts_run env (fun _ => Rejected) log _ Hs) as (req & _ & ->).
    reflexivity.
  - intros response Hok.
    destruct (getProducts_run env (fun _ => Responded response) log _ Hs)
      as (req & _ & ->).
    rewrite Hok. reflexivity.
  - intros response Hok Hbody.
    destruct (getProducts_run env (fun _ => Responded response) log _ Hs)
      as (req & _ & ->).
    rewrite Hok, Hbody. reflexivity.
  - intros response parsed Hok Hbody Herrors.
    destruct (getProducts_run env (fun _ => Responded response) log _ Hs)
      as (req & _ & ->).
    rewrite Hok, Hbody. simpl. rewrite Herrors. reflexivity.
  - intros response parsed Hok Hbody Herrors Hdata.
    destruct (getProducts_run env (fun _ => Responded response) log _ Hs)
      as (req & _ & ->).
    rewrite Hok, Hbody. simpl. rewrite Herrors, Hdata. reflexivity.
Qed.

(** X4: a successful [getProducts] returns the products of the response
    in their order, one for one, and changes nothing in a product but
    its [image]. *)
Theorem getProducts_keeps_fields_and_order env session log response parsed d :
  createSession env = Returned session ->
  ok response = true -> json_body response = Some parsed ->
  truthy (errors parsed) = false -> data parsed = Some d ->
  exists ps,
    fst (getProducts env (fun _ => Responded response) log) = Returned ps /\
    Forall2
      (fun edge p =>
         Product.id p = Product.id (node edge) /\
         Product.title p = Product.title (node edge) /\
         Product.handle p = Product.handle (node edge) /\
         Product.description p = Product.description (node edge) /\
         Product.images p = Product.images (node edge) /\
         Product.variants p = Product.variants (node edge))
      (edges (products d)) ps.
Proof.
  intros Hs Hok Hbody Herrors Hdata.
  destruct (getProducts_run env (fun _ => Responded response) log _ Hs)
    as (req & _ & ->).
  rewrite Hok, Hbody. simpl. rewrite Herrors, Hdata.
  eexists. split; [reflexivity|].
  induction (edges (products d)) as [|edge rest IH]; simpl; constructor;
    [|exact IH].
  unfold with_image. destruct (edges (Product.images (node edge)));
    simpl; repeat split; reflexivity.
Qed.

(** X5: every request that [createOrder] sends bills the shipping
    address: the two addresses are equal, carry the city as it was typed
    and the province code that [getProvinceCode] gives for it, and the
    order has exactly one line item, of quantity one. *)
Theorem createOrder_request_shape env net orderData log session :
  createSession env = Returned session ->
  exists req,
    snd (createOrder env net orderData log) = log ++ [req] /\
    billingAddress (order (body req)) = shippingAddress (order (body req)) /\
    Address.city (shippingAddress (order (body req)))
      = OrderInput.city orderData /\
    Address.provinceCode (shippingAddress (order (body req)))
      = getProvinceCode (OrderInput.city orderData) /\
    Address.countryCode (shippingAddress (order (body req))) = lit "ES" /\
    map LineItem.quantity (lineItems (order (body req))) = [ 1%Z ].
Proof.
  intros Hs. eexists.
  rewrite (createOrder_run env net orderData log session Hs).
  split; [reflexivity|]. simpl. repeat split; reflexivity.
Qed.

End Requests.

(** ** More on province codes *)

Section ProvinceRange.
Import JS Queries.
Context {R : Runtime}.

(** X6: the province code is never invented: [getProvinceCode] returns
    its input, or the code of a table entry whose normalized name is the
    normalized input. *)
Theorem getProvinceCode_range (s : jsstring) :
  getProvinceCode s = s \/
  exists name,
    In (name, getProvinceCode s) SPANISH_PROVINCE_CODES /\
    normalized name = normalized s.
Proof.
  unfold getProvinceCode.
  destruct (find_code (normalized s) SPANISH_PROVINCE_CODES) as [code|] eqn:E.
  - right. apply find_code_some, E.
  - left. reflexivity.
Qed.

Hypothesis unicode : unicode_on_latin1 R.

(** No code of the table is itself the normalized name of a province. *)
Lemma table_code_unmatched name code :
  In (name, code) SPANISH_PROVINCE_CODES -> getProvinceCode code = code.
Proof.
  intros Hin.
  assert (Hall : forallb
            (fun e =>
               latin1b (snd e) &&
               match @find_code latin1_runtime
                       (@normalized latin1_runtime (snd e))
                       SPANISH_PROVINCE_CODES with
               | Some _ => false
               | None => true
               end) SPANISH_PROVINCE_CODES = true)
    by (vm_compute; reflexivity).
  rewrite forallb_forall in Hall. specialize (Hall (name, code) Hin).
  cbn [snd] in Hall. apply andb_true_iff in Hall. destruct Hall as [Hl Hnone].
  rewrite (getProvinceCode_latin1 unicode code (latin1b_ok _ Hl)).
  destruct (@find_code latin1_runtime (@normalized latin1_runtime code)
              SPANISH_PROVINCE_CODES); [discriminate | reflexivity].
Qed.

(** X7: looking a result up again changes nothing:
    [getProvinceCode (getProvinceCode s) = getProvinceCode s]. *)
Theorem getProvinceCode_idempotent (s : jsstring) :
  getProvinceCode (getProvinceCode s) = getProvinceCode s.
Proof.
  destruct (getProvinceCode_range s) as [H | (name & Hin & _)].
  - rewrite H. exact H.
  - apply (table_code_unmatched name), Hin.
Qed.

End ProvinceRange.

(** ** More on the order response *)

Section OrderResponseEdges.
Import JS Net Queries.
Context {R : Runtime}.

(** X8: a body that parses to something other than an object. The
    literal null makes the read of [data.errors] throw, and the throw
    leaves [createOrder]; a boolean, a number, a string or an array is
    answered with the missing-field failure. *)
Theorem createOrder_body_not_object env net orderData log session response data :
  createSession env = Returned session ->
  net (order_request env session orderData) = Responded response ->
  json_body response = Some data ->
  (data = JNull ->
     fst (createOrder env net orderData log) = Threw TypeError) /\
  ((exists b, data = JBool b) \/ (exists z, data = JNum z) \/
   (exists s, data = JStr s) \/ (exists items, data = JArr items) ->
     fst (createOrder env net orderData log)
       = Returned (Failure (JStr (lit "Missing orderCreate field")))).
Proof.
  intros Hs Hnet Hbody.
  rewrite (createOrder_run env net orderData log session Hs), Hnet, Hbody.
  cbn [fst]. split.
  - intros ->. reflexivity.
  - intros [[b ->] | [[z ->] | [[s ->] | [items ->]]]]; reflexivity.
Qed.

(** X9: [createOrder] never reports success for a response that lacks
    an order or lists user errors: when it returns a success carrying
    [created], the parsed body has an [orderCreate] whose [order] is
    [created], a truthy value, and whose [userErrors] is not a non-empty
    array. *)
Theorem createOrder_success_sound env net orderData log created :
  fst (createOrder env net orderData log) = Returned (Success created) ->
  exists session response data orderCreate,
    createSession env = Returned session /\
    net (order_request env session orderData) = Responded response /\
    json_body response = Some data /\
    opt_member (opt_member (Some data) (lit "data")) (lit "orderCreate")
      = Some orderCreate /\
    prop orderCreate (lit "order") = Some created /\
    truthy (Some created) = true /\
    forall e es, prop orderCreate (lit "userErrors") <> Some (JArr (e :: es)).
Proof.
  intros Hret.
  destruct (createSession_cases env) as [[session Hs] | Hs];
    [|rewrite (createOrder_unconfigured env net orderData log Hs) in Hret;
      discriminate].
  rewrite (createOrder_run env net orderData log session Hs) in Hret.
  cbn [fst] in Hret.
  destruct (net (order_request env session orderData)) as [|response] eqn:Hnet;
    [discriminate|].
  destruct (json_body response) as [data|] eqn:Hbody; [|discriminate].
  exists session, response, data.
  unfold classify in Hret.
  destruct (should_log data) as [logged|]; [|discriminate].
  cbn [and_then] in Hret.
  destruct (opt_member (opt_member (Some data) (lit "data")) (lit "orderCreate"))
    as [orderCreate|] eqn:Hoc; [|discriminate].
  destruct (truthy (Some orderCreate)) eqn:Htruthy; [|discriminate].
  cbn [negb] in Hret.
  pose proof (truthy_not_null _ Htruthy) as Hnn.
  rewrite !(member_some _ _ Hnn) in Hret. cbn [and_then] in Hret.
  exists orderCreate. repeat split; try assumption; try reflexivity.
  - destruct (prop orderCreate (lit "userErrors")) as [ue|] eqn:Hue.
    + destruct (truthy (Some ue)) eqn:Hut.
      * rewrite (member_some _ _ (truthy_not_null _ Hut)) in Hret.
        cbn [and_then] in Hret.
        destruct (gt_zero (prop ue (lit "length"))) as [[|]|]; try discriminate.
        cbn [and_then] in Hret.
        destruct (prop orderCreate (lit "order")) as [o|]; [|discriminate].
        destruct (truthy (Some o)); [|discriminate]. congruence.
      * cbn [and_then] in Hret.
        destruct (prop orderCreate (lit "order")) as [o|]; [|discriminate].
        destruct (truthy (Some o)); [|discriminate]. congruence.
    + cbn [truthy and_then] in Hret.
      destruct (prop orderCreate (lit "order")) as [o|]; [|discriminate].
      destruct (truthy (Some o)); [|discriminate]. congruence.
  - destruct (prop orderCreate (lit "userErrors")) as [ue|] eqn:Hue.
    + destruct (truthy (Some ue)) eqn:Hut.
      * rewrite (member_some _ _ (truthy_not_null _ Hut)) in Hret.
        cbn [and_then] in Hret.
        destruct (gt_zero (prop ue (lit "length"))) as [[|]|]; try discriminate.
        cbn [and_then] in Hret.
        destruct (prop orderCreate (lit "order")) as [o|]; [|discriminate].
        destruct (truthy (Some o)) eqn:Ho; [|discriminate].
        injection Hret as <-. exact Ho.
      * cbn [and_then] in Hret.
        destruct (prop orderCreate (lit "order")) as [o|]; [|discriminate].
        destruct (truthy (Some o)) eqn:Ho; [|discriminate].
        injection Hret as <-. exact Ho.
    + cbn [truthy and_then] in Hret.
      destruct (prop orderCreate (lit "order")) as [o|]; [|discriminate].
      destruct (truthy (Some o)) eqn:Ho; [|discriminate].
      injection Hret as <-. exact Ho.
  - intros e es Hue. rewrite Hue in Hret.
    cbn [truthy] in Hret.
    rewrite (member_some (JArr (e :: es)) _ ltac:(discriminate)) in Hret.
    cbn in Hret. discriminate.
Qed.

End OrderResponseEdges.

(** ** Submitting, whatever the backend answers *)

Section SubmitOutcomes.
Import JS Net Queries OrderForm.
Context {R : Runtime}.
Variable env : Env.
Variable net : Request OrderCreate -> fetch_result json.

(** [handleSubmit] on a cart that is not empty, in terms of what
    [createOrder] did. *)
Lemma handleSubmit_run st item rest log :
  cartItems st = item :: rest ->
  handleSubmit env net st log =
    (Returned
       (setIsSubmitting false
          (match fst (createOrder env net (orderData_of st) log) with
           | Returned _ =>
               setCartItems (fun _ => [])
                 (setFormData FormData.empty
                    (setSuccess true
                       (setSuccess false
                          (setError None (setIsSubmitting true st)))))
           | Threw e =>
               setError (Some (Caught e))
                 (setSuccess false (setError None (setIsSubmitting true st)))
           end)),
     snd (createOrder env net (orderData_of st) log)).
Proof.
  intros Hcart. unfold handleSubmit. rewrite Hcart.
  unfold bind, try_catch, ret.
  destruct (createOrder env net (orderData_of st) log) as [[result|e] log'];
    reflexivity.
Qed.

(** X10: [handleSubmit] never throws and sends at most one request; for
    an empty cart it sends none and only sets the error that asks for a
    product. *)
Theorem handleSubmit_always_returns st log :
  exists st',
    fst (handleSubmit env net st log) = Returned st' /\
    (exists sent,
        snd (handleSubmit env net st log) = log ++ sent /\
        (List.length sent <= 1)%nat) /\
    (cartItems st = [] ->
       snd (handleSubmit env net st log) = log /\
       st' = setError (Some PleaseAddProduct) st).
Proof.
  destruct (cartItems st) as [|item rest] eqn:Hcart.
  - unfold handleSubmit. rewrite Hcart. eexists. split; [reflexivity|].
    split; [exists []; rewrite app_nil_r; split; [reflexivity | simpl; lia]|].
    intros _. split; reflexivity.
  - rewrite (handleSubmit_run st item rest log Hcart). eexists.
    split; [reflexivity|]. split; [|discriminate]. cbn [snd].
    destruct (createSession_cases env) as [[session Hs] | Hs].
    + rewrite (createOrder_run env net _ log session Hs). cbn [snd].
      eexists. split; [reflexivity | simpl; lia].
    + rewrite (createOrder_unconfigured env net _ log Hs). cbn [snd].
      exists []. rewrite app_nil_r. split; [reflexivity | simpl; lia].
Qed.

(** X11: the result of [createOrder] is not looked at. Whenever
    [createOrder] returns, with a success or with a failure result, the
    form shows success, empties the cart and clears the fields. *)
Theorem handleSubmit_success_on_any_result st item rest log result :
  cartItems st = item :: rest ->
  fst (createOrder env net (orderData_of st) log) = Returned result ->
  exists st',
    fst (handleSubmit env net st log) = Returned st' /\
    success_shown st' = true /\
    error st' = None /\
    cartItems st' = [] /\
    formData st' = FormData.empty /\
    isSubmitting st' = false.
Proof.
  intros Hcart Hresult.
  rewrite (handleSubmit_run st item rest log Hcart), Hresult.
  eexists. split; [reflexivity|]. repeat split; reflexivity.
Qed.

(** X12: when [createOrder] throws, the cart and the fields are kept,
    the error is the caught exception, and success is not shown. *)
Theorem handleSubmit_keeps_cart_on_throw st item rest log e :
  cartItems st = item :: rest ->
  fst (createOrder env net (orderData_of st) log) = Threw e ->
  exists st',
    fst (handleSubmit env net st log) = Returned st' /\
    error st' = Some (Caught e) /\
    success_shown st' = false /\
    cartItems st' = cartItems st /\
    formData st' = formData st /\
    isSubmitting st' = false.
Proof.
  intros Hcart Hthrow.
  rewrite (handleSubmit_run st item rest log Hcart), Hthrow.
  eexists. split; [reflexivity|]. repeat split; reflexivity.
Qed.

End SubmitOutcomes.

(** ** Looking lines up after the cart changed *)

Section CartLookups.
Import JS Queries OrderForm.
Local Open Scope Z_scope.

Let has_id (variantId : jsstring) (item : CartItem.t) : bool :=
  str_eqb (CartItem.variantId item) variantId.

Let ids (st : State) : list jsstring := map CartItem.variantId (cartItems st).

Lemma find_update_first_hit {A} (p : A -> bool) (f : A -> A) (xs : list A) :
  (forall x, p (f x) = p x) ->
  find p (update_first p f xs) = option_map f (find p xs).
Proof.
  intros Hp. induction xs as [|x rest IH]; simpl; [reflexivity|].
  destruct (p x) eqn:E; simpl.
  - rewrite Hp, E. reflexivity.
  - rewrite E. exact IH.
Qed.

Lemma find_update_first_miss {A} (p q : A -> bool) (f : A -> A) (xs : list A) :
  (forall x, q (f x) = q x) ->
  (forall x, p x = true -> q x = false) ->
  find q (update_first p f xs) = find q xs.
Proof.
  intros Hq Hpq. induction xs as [|x rest IH]; simpl; [reflexivity|].
  destruct (p x) eqn:E; simpl.
  - rewrite Hq, (Hpq x E). reflexivity.
  - destruct (q x); [reflexivity | exact IH].
Qed.

Lemma map_update_first {A B} (g : A -> B) (p : A -> bool) (f : A -> A)
    (xs : list A) :
  (forall x, g (f x) = g x) -> map g (update_first p f xs) = map g xs.
Proof.
  intros Hg. induction xs as [|x rest IH]; simpl; [reflexivity|].
  destruct (p x); simpl; [rewrite Hg | rewrite IH]; reflexivity.
Qed.

Lemma find_app_none {A} (p : A -> bool) (xs ys : list A) :
  find p xs = None -> find p (xs ++ ys) = find p ys.
Proof.
  induction xs as [|x rest IH]; simpl; [reflexivity|].
  destruct (p x); [discriminate | exact IH].
Qed.

Lemma find_app_last_miss {A} (p : A -> bool) (xs : list A) (y : A) :
  p y = false -> find p (xs ++ [y]) = find p xs.
Proof.
  intros Hy. induction xs as [|x rest IH]; simpl.
  - rewrite Hy. reflexivity.
  - destruct (p x); [reflexivity | exact IH].
Qed.

(** The sum that [getTotalItems] folds. *)
Lemma total_from (xs : list CartItem.t) (start : Z) :
  fold_left (fun total item => total + CartItem.quantity item) xs start
  = start + fold_left (fun total item => total + CartItem.quantity item) xs 0.
Proof.
  revert start; induction xs as [|x rest IH]; intros start; simpl; [lia|].
  rewrite (IH (start + CartItem.quantity x)), (IH (CartItem.quantity x)). lia.
Qed.

Lemma total_update_first (p : CartItem.t -> bool) (extra : Z)
    (xs : list CartItem.t) (x : CartItem.t) :
  find p xs = Some x ->
  fold_left (fun total item => total + CartItem.quantity item)
    (update_first p
       (fun item => with_quantity item (CartItem.quantity item + extra)) xs) 0
  = fold_left (fun total item => total + CartItem.quantity item) xs 0 + extra.
Proof.
  revert x; induction xs as [|y rest IH]; intros x; simpl; [discriminate|].
  destruct (p y) eqn:E; simpl.
  - intros _.
    rewrite (total_from rest (CartItem.quantity y + extra)),
            (total_from rest (CartItem.quantity y)). lia.
  - intros H.
    rewrite (total_from _ (CartItem.quantity y)), (IH x H),
            (total_from rest (CartItem.quantity y)). lia.
Qed.

Lemma has_id_other variantId other (item : CartItem.t) :
  other <> variantId -> has_id variantId item = true ->
  has_id other item = false.
Proof.
  unfold has_id. intros Hne Hid. apply str_eqb_eq in Hid.
  apply str_eqb_neq. congruence.
Qed.

(** X13: an [addToCart] within the stock is taken: the quantity of that
    variant in the cart grows by the amount, the other variants keep
    theirs, the total of items grows by the amount, and the error is
    cleared. *)
Theorem addToCart_accepted product variant quantity st :
  currentQuantity (Variant.id variant) st + quantity
    <= Variant.inventoryQuantity variant ->
  currentQuantity (Variant.id variant)
    (addToCart product variant quantity st)
    = currentQuantity (Variant.id variant) st + quantity /\
  (forall other,
      other <> Variant.id variant ->
      currentQuantity other (addToCart product variant quantity st)
        = currentQuantity other st) /\
  getTotalItems (addToCart product variant quantity st)
    = getTotalItems st + quantity /\
  error (addToCart product variant quantity st) = None.
Proof.
  intros Hfits. unfold currentQuantity in Hfits.
  unfold addToCart, currentQuantity, getTotalItems.
  fold (has_id (Variant.id variant)).
  fold (has_id (Variant.id variant)) in Hfits.
  destruct (find (has_id (Variant.id variant)) (cartItems st))
    as [existing|] eqn:Hfind.
  - replace (CartItem.quantity existing + quantity
               >? Variant.inventoryQuantity variant) with false
      by (symmetry; rewrite Z.gtb_ltb; apply Z.ltb_ge; lia).
    pose proof (findIndex_from_some _ 0 _ _ Hfind) as Hindex.
    unfold findIndex.
    replace (findIndex_from _ 0 (cartItems st) >=? 0) with true
      by (symmetry; apply Z.geb_le; exact Hindex).
    cbn [cartItems setError setShowProductModal setCartItems error].
    unfold mapi. rewrite (mapi_at_findIndex _ _ 0 _ _ Hfind).
    split; [|split; [|split]].
    + rewrite find_update_first_hit by reflexivity. rewrite Hfind. reflexivity.
    + intros other Hother.
      change (fun item => str_eqb (CartItem.variantId item) other)
        with (has_id other).
      rewrite (find_update_first_miss (has_id (Variant.id variant)) (has_id other));
        [reflexivity | reflexivity |].
      intros x. apply has_id_other, Hother.
    + apply (total_update_first _ quantity _ _ Hfind).
    + reflexivity.
  - replace (0 + quantity >? Variant.inventoryQuantity variant) with false
      by (symmetry; rewrite Z.gtb_ltb; apply Z.ltb_ge; lia).
    unfold findIndex. rewrite (findIndex_from_none _ 0 _ Hfind).
    cbn [cartItems setError setShowProductModal setCartItems error Z.geb
         Z.compare].
    split; [|split; [|split]].
    + rewrite (find_app_none _ _ _ Hfind). simpl. unfold has_id. simpl.
      rewrite (proj2 (str_eqb_eq _ _) eq_refl). reflexivity.
    + intros other Hother.
      change (fun item => str_eqb (CartItem.variantId item) other)
        with (has_id other).
      rewrite find_app_last_miss; [reflexivity|].
      unfold has_id. simpl. apply str_eqb_neq. congruence.
    + rewrite fold_left_app. simpl. reflexivity.
    + reflexivity.
Qed.

Lemma find_map_hit {A} (p : A -> bool) (g : A -> A) (xs : list A) :
  (forall x, p (g x) = p x) ->
  find p (map g xs) = option_map g (find p xs).
Proof.
  intros Hp. induction xs as [|x rest IH]; simpl; [reflexivity|].
  rewrite Hp. destruct (p x); [reflexivity | exact IH].
Qed.

Lemma find_map_miss {A} (q : A -> bool) (g : A -> A) (xs : list A) :
  (forall x, q (g x) = q x) ->
  (forall x, q x = true -> g x = x) ->
  find q (map g xs) = find q xs.
Proof.
  intros Hq Hfix. induction xs as [|x rest IH]; simpl; [reflexivity|].
  rewrite Hq. destruct (q x) eqn:E; [rewrite (Hfix x E); reflexivity | exact IH].
Qed.

(** X14: an [updateQuantity] with a positive quantity within the stock
    of the line sets that variant's quantity; the other variants keep
    theirs, the lines keep their order, and the error is cleared. *)
Theorem updateQuantity_accepted variantId quantity st item :
  0 < quantity ->
  find (has_id variantId) (cartItems st) = Some item ->
  quantity <= Variant.inventoryQuantity (CartItem.variant item) ->
  currentQuantity variantId (updateQuantity variantId quantity st) = quantity /\
  (forall other,
      other <> variantId ->
      currentQuantity other (updateQuantity variantId quantity st)
        = currentQuantity other st) /\
  ids (updateQuantity variantId quantity st) = ids st /\
  error (updateQuantity variantId quantity st) = None.
Proof.
  intros Hpos Hfind Hfits.
  pose (g := fun item : CartItem.t =>
               if str_eqb (CartItem.variantId item) variantId
               then with_quantity item quantity else item).
  assert (Hg_id : forall id x, has_id id (g x) = has_id id x).
  { intros id x. unfold g, has_id.
    destruct (str_eqb (CartItem.variantId x) variantId); reflexivity. }
  assert (Hupdated :
            cartItems (updateQuantity variantId quantity st)
              = map g (cartItems st) /\
            error (updateQuantity variantId quantity st) = None).
  { unfold updateQuantity.
    replace (quantity <=? 0) with false by (symmetry; apply Z.leb_gt; exact Hpos).
    fold (has_id variantId). rewrite Hfind.
    replace (quantity >? Variant.inventoryQuantity (CartItem.variant item))
      with false
      by (symmetry; rewrite Z.gtb_ltb; apply Z.ltb_ge; exact Hfits).
    split; reflexivity. }
  destruct Hupdated as [Hcart Herror].
  split; [|split; [|split; [|exact Herror]]].
  - unfold currentQuantity. fold (has_id variantId). rewrite Hcart.
    rewrite (find_map_hit _ g _ (Hg_id variantId)), Hfind. simpl.
    unfold g. unfold has_id in Hfind. apply find_some in Hfind.
    destruct Hfind as [_ Hid]. rewrite Hid. reflexivity.
  - intros other Hother. unfold currentQuantity.
    change (fun item => str_eqb (CartItem.variantId item) other)
      with (has_id other).
    rewrite Hcart, (find_map_miss _ g _ (Hg_id other)); [reflexivity|].
    intros x Hx. unfold g.
    destruct (str_eqb (CartItem.variantId x) variantId) eqn:E; [|reflexivity].
    apply str_eqb_eq in E. unfold has_id in Hx. apply str_eqb_eq in Hx.
    congruence.
  - unfold ids. rewrite Hcart, map_map. apply map_ext.
    intros x. unfold g.
    destruct (str_eqb (CartItem.variantId x) variantId); reflexivity.
Qed.

Lemma filter_all {A} (h : A -> bool) (xs : list A) :
  (forall x, In x xs -> h x = true) -> filter h xs = xs.
Proof.
  induction xs as [|x rest IH]; simpl; intros Hall; [reflexivity|].
  rewrite (Hall x (or_introl eq_refl)). f_equal.
  apply IH. intros y Hy. apply Hall. right; exact Hy.
Qed.

(** X15: for a variant that is not in the cart, [updateQuantity] changes
    no line, whatever the quantity, and [removeFromCart] changes none
    either. *)
Theorem absent_variant_untouched variantId st :
  find (has_id variantId) (cartItems st) = None ->
  (forall quantity,
      cartItems (updateQuantity variantId quantity st) = cartItems st) /\
  cartItems (removeFromCart variantId st) = cartItems st.
Proof.
  intros Hnone.
  assert (Hmiss : forall x, In x (cartItems st) ->
                       str_eqb (CartItem.variantId x) variantId = false).
  { intros x Hx. apply (find_none _ _ Hnone x Hx). }
  assert (Hremove : cartItems (removeFromCart variantId st) = cartItems st).
  { unfold removeFromCart. cbn [cartItems setCartItems].
    apply filter_all. intros x Hx. rewrite (Hmiss x Hx). reflexivity. }
  split; [|exact Hremove].
  intros quantity. unfold updateQuantity.
  destruct (quantity <=? 0); [exact Hremove|].
  fold (has_id variantId). rewrite Hnone.
  cbn [cartItems setError setCartItems].
  rewrite <- (map_id (cartItems st)) at 2.
  apply map_ext_in. intros x Hx. rewrite (Hmiss x Hx). reflexivity.
Qed.

Lemma find_filter_out {A} (p : A -> bool) (xs : list A) :
  find p (filter (fun x => negb (p x)) xs) = None.
Proof.
  induction xs as [|x rest IH]; simpl; [reflexivity|].
  destruct (p x) eqn:E; simpl; [exact IH | rewrite E; exact IH].
Qed.

Lemma find_filter_keep {A} (p q : A -> bool) (xs : list A) :
  (forall x, q x = true -> p x = true) ->
  find q (filter p xs) = find q xs.
Proof.
  intros Hqp. induction xs as [|x rest IH]; simpl; [reflexivity|].
  destruct (q x) eqn:Eq.
  - rewrite (Hqp x Eq). simpl. rewrite Eq. reflexivity.
  - destruct (p x); simpl; [rewrite Eq|]; exact IH.
Qed.

(** X16: [removeFromCart] forgets the variant and nothing else: its
    quantity in the cart reads zero afterwards, the other variants keep
    theirs, and removing it again changes nothing. *)
Theorem removeFromCart_forgets variantId st :
  currentQuantity variantId (removeFromCart variantId st) = 0 /\
  (forall other,
      other <> variantId ->
      currentQuantity other (removeFromCart variantId st)
        = currentQuantity other st) /\
  removeFromCart variantId (removeFromCart variantId st)
    = removeFromCart variantId st.
Proof.
  split; [|split].
  - unfold currentQuantity, removeFromCart. cbn [cartItems setCartItems].
    rewrite (find_filter_out (has_id variantId)). reflexivity.
  - intros other Hother. unfold currentQuantity, removeFromCart.
    cbn [cartItems setCartItems].
    change (fun item => str_eqb (CartItem.variantId item) other)
      with (has_id other).
    rewrite (find_filter_keep _ (has_id other)); [reflexivity|].
    intros x Hx. apply negb_true_iff. apply (has_id_other other); [|exact Hx].
    congruence.
  - unfold removeFromCart, setCartItems. cbn [cartItems formData isSubmitting
      error success_shown showProductModal].
    f_equal. induction (cartItems st) as [|x rest IH]; simpl; [reflexivity|].
    destruct (str_eqb (CartItem.variantId x) variantId) eqn:E; simpl.
    + exact IH.
    + rewrite E. simpl. rewrite IH. reflexivity.
Qed.

Lemma NoDup_map_filter {A B} (g : A -> B) (h : A -> bool) (xs : list A) :
  NoDup (map g xs) -> NoDup (map g (filter h xs)).
Proof.
  induction xs as [|x rest IH]; simpl; intros Hnd; [constructor|].
  inversion Hnd as [|? ? Hnotin Hrest]; subst.
  destruct (h x); simpl; [|apply IH, Hrest].
  constructor; [|apply IH, Hrest].
  intros Hin. apply Hnotin. apply in_map_iff in Hin.
  destruct Hin as (y & Hy & Hyin). apply in_map_iff. exists y.
  split; [exact Hy|]. apply filter_In in Hyin. apply Hyin.
Qed.

(** X17: the cart never holds two lines for one variant: starting from
    a cart whose lines have distinct variant ids, each of the three
    handlers gives such a cart again, whatever its arguments. *)
Theorem cart_lines_stay_distinct st :
  NoDup (ids st) ->
  (forall product variant quantity,
      NoDup (ids (addToCart product variant quantity st))) /\
  (forall variantId quantity,
      NoDup (ids (updateQuantity variantId quantity st))) /\
  (forall variantId, NoDup (ids (removeFromCart variantId st))).
Proof.
  intros Hnd. unfold ids in *.
  assert (Hremove : forall variantId,
             NoDup (map CartItem.variantId
                      (cartItems (removeFromCart variantId st)))).
  { intros variantId. apply NoDup_map_filter, Hnd. }
  split; [|split; [|exact Hremove]].
  - intros product variant quantity. unfold addToCart.
    fold (has_id (Variant.id variant)).
    destruct (find (has_id (Variant.id variant)) (cartItems st))
      as [existing|] eqn:Hfind.
    + destruct (CartItem.quantity existing + quantity
                  >? Variant.inventoryQuantity variant); [exact Hnd|].
      pose proof (findIndex_from_some _ 0 _ _ Hfind) as Hindex.
      unfold findIndex.
      replace (findIndex_from _ 0 (cartItems st) >=? 0) with true
        by (symmetry; apply Z.geb_le; exact Hindex).
      cbn [cartItems setError setShowProductModal setCartItems].
      unfold mapi. rewrite (mapi_at_findIndex _ _ 0 _ _ Hfind).
      rewrite map_update_first by reflexivity. exact Hnd.
    + destruct (0 + quantity >? Variant.inventoryQuantity variant);
        [exact Hnd|].
      unfold findIndex. rewrite (findIndex_from_none _ 0 _ Hfind).
      cbn [cartItems setError setShowProductModal setCartItems Z.geb Z.compare].
      rewrite map_app. simpl.
      apply NoDup_app; [exact Hnd | constructor; [intros [] | constructor] |].
      intros id Hin [<- | []]. apply in_map_iff in Hin.
      destruct Hin as (x & Hx & Hxin).
      pose proof (find_none _ _ Hfind x Hxin) as Hmiss.
      unfold has_id in Hmiss. apply str_eqb_neq in Hmiss. congruence.
  - intros variantId quantity. unfold updateQuantity.
    destruct (quantity <=? 0); [apply Hremove|].
    assert (Hmap : map CartItem.variantId
                     (map (fun item =>
                             if str_eqb (CartItem.variantId item) variantId
                             then with_quantity item quantity else item)
                        (cartItems st))
                   = map CartItem.variantId (cartItems st)).
    { rewrite map_map. apply map_ext. intros x.
      destruct (str_eqb (CartItem.variantId x) variantId); reflexivity. }
    destruct (find _ (cartItems st)) as [found|].
    + destruct (quantity >? Variant.inventoryQuantity (CartItem.variant found));
        [exact Hnd|].
      cbn [cartItems setError setCartItems]. rewrite Hmap. exact Hnd.
    + cbn [cartItems setError setCartItems]. rewrite Hmap. exact Hnd.
Qed.

End CartLookups.

(** ** The picker and the cart together *)

Section Picker.
Import JS Queries OrderForm CartScreen.
Local Open Scope Z_scope.

Variable toLowerCase : jsstring -> jsstring.
Variable products : list ShopifyProduct.

(** X18: what the picker lists comes from the catalog and is in stock:
    a listed product is a product of the catalog that has at least one
    row, and every row is one of its variants with a positive stock. *)
Theorem picker_rows_in_stock searchTerm product :
  In product (availableProducts toLowerCase products searchTerm) ->
  In product products /\
  shown_variants product <> [] /\
  forall row,
    In row (shown_variants product) ->
    offered products product (node row) /\
    0 < Variant.inventoryQuantity (node row).
Proof.
  unfold availableProducts. intros Hin. apply filter_In in Hin.
  destruct Hin as [Hproduct Hkeep]. apply andb_true_iff in Hkeep.
  destruct Hkeep as [Hstock _].
  split; [exact Hproduct|]. split.
  - apply existsb_exists in Hstock. destruct Hstock as (row & Hrow & Hpos).
    intros Hempty.
    assert (Hshown : In row (shown_variants product))
      by (apply filter_In; split; assumption).
    rewrite Hempty in Hshown. exact Hshown.
  - intros row Hrow. apply filter_In in Hrow. destruct Hrow as [Hrow Hpos].
    split.
    + split; [exact Hproduct|]. apply in_map, Hrow.
    + unfold in_stock in Hpos. rewrite Z.gtb_ltb in Hpos.
      apply Z.ltb_lt, Hpos.
Qed.

Hypothesis unique : variant_ids_unique products.

(** In a reachable cart the quantity of a catalog variant is within its
    stock. *)
Lemma reachable_current_within product variant st :
  reachable products st -> offered products product variant ->
  0 <= Variant.inventoryQuantity variant ->
  currentQuantity (Variant.id variant) st <= Variant.inventoryQuantity variant.
Proof.
  intros Hst Hoffered Hstock. unfold currentQuantity.
  destruct (find _ (cartItems st)) as [item|] eqn:Hfind; [|exact Hstock].
  apply find_some in Hfind. destruct Hfind as [Hin Hid].
  apply str_eqb_eq in Hid.
  pose proof (reachable_sound products unique st Hst) as Hsound.
  rewrite Forall_forall in Hsound.
  destruct (Hsound item Hin) as (_ & Hwithin & Hown & pe & Hpe).
  assert (Hsame : CartItem.variant item = variant).
  { apply (unique pe _ product _ Hpe Hoffered). congruence. }
  unfold within_stock in Hwithin. rewrite Hsame in Hwithin. exact Hwithin.
Qed.

(** X19: in a reachable cart the remaining stock shown on a row is never
    negative, and an "Add" button that is enabled always adds: the call
    it makes is not refused, and the variant's quantity grows by one. *)
Theorem enabled_add_is_accepted st product row :
  reachable products st ->
  In product products -> In row (shown_variants product) ->
  0 <= remainingStock (node row) st /\
  (add_enabled (node row) st = true ->
     error (addToCart product (node row) 1 st) = None /\
     currentQuantity (Variant.id (node row)) (addToCart product (node row) 1 st)
       = currentQuantity (Variant.id (node row)) st + 1).
Proof.
  intros Hst Hproduct Hrow. apply filter_In in Hrow.
  destruct Hrow as [Hrow Hpos]. unfold in_stock in Hpos.
  rewrite Z.gtb_ltb in Hpos. apply Z.ltb_lt in Hpos.
  assert (Hoffered : offered products product (node row))
    by (split; [exact Hproduct | apply in_map, Hrow]).
  pose proof (reachable_current_within product (node row) st Hst Hoffered
                ltac:(lia)) as Hwithin.
  unfold remainingStock, add_enabled. split; [lia|].
  intros Henabled. apply negb_true_iff, Z.eqb_neq in Henabled.
  unfold remainingStock in Henabled.
  destruct (addToCart_accepted product (node row) 1 st ltac:(lia))
    as (Hquantity & _ & _ & Herror).
  split; assumption.
Qed.

(** X20: in a reachable cart every line counts at least one item, so the
    total of items is at least the number of lines and is zero only for
    the empty cart. *)
Theorem cart_total_counts_lines st :
  reachable products st ->
  Z.of_nat (List.length (cartItems st)) <= getTotalItems st /\
  (getTotalItems st = 0 <-> cartItems st = []).
Proof.
  intros Hst.
  pose proof (reachable_sound products unique st Hst) as Hsound.
  assert (Hle : Z.of_nat (List.length (cartItems st)) <= getTotalItems st).
  { unfold getTotalItems.
    induction Hsound as [|item rest Hitem _ IH]; [simpl; lia|].
    cbn [fold_left List.length]. rewrite total_from.
    destruct Hitem as (Hpos & _). lia. }
  split; [exact Hle|]. split.
  - intros Hzero. rewrite Hzero in Hle.
    destruct (cartItems st); [reflexivity | simpl in Hle; lia].
  - intros Hempty. unfold getTotalItems. rewrite Hempty. reflexivity.
Qed.

End Picker.

(** ** More on the script loader *)

Section LoaderStates.
Import AddressAutocomplete.

Lemma settle_pending p to ps :
  nth_error ps p = Some Pending -> nth_error (settle p to ps) p = Some to.
Proof.
  revert p; induction ps as [|s rest IH]; intros [|p]; simpl; try discriminate.
  - intros [= ->]. reflexivity.
  - destruct s; simpl; apply IH.
Qed.

Lemma fire_fired k scripts p scripts' :
  fire k scripts = Some (p, scripts') ->
  exists s, In s scripts /\ fired s = false /\ settles s = p.
Proof.
  revert k p scripts'.
  induction scripts as [|s rest IH]; intros [|k] p scripts'; simpl;
    try discriminate.
  - destruct (fired s) eqn:E; [discriminate|]. intros [= <- _].
    exists s. auto.
  - destruct (fire k rest) as [[q rest']|] eqn:E; [|discriminate].
    intros [= <- _]. destruct (IH _ _ _ E) as (s' & Hin & Hf & Hs).
    exists s'. auto.
Qed.

(** After the load failed: the flag is down, the cached promise is
    rejected, and no script is left to fire. *)
Let failed (p : nat) (pg : Page) : Prop :=
  isScriptLoaded pg = false /\
  scriptLoadPromise pg = Some p /\
  nth_error (promises pg) p = Some Rejected /\
  Forall (fun s => fired s = true) (injected pg).

Lemma fire_all_fired k scripts :
  Forall (fun s => fired s = true) scripts -> fire k scripts = None.
Proof.
  intros Hall. destruct (fire k scripts) as [[p scripts']|] eqn:E;
    [|reflexivity].
  destruct (fire_fired _ _ _ _ E) as (s & Hin & Hf & _).
  rewrite Forall_forall in Hall. rewrite (Hall s Hin) in Hf. discriminate.
Qed.

Lemma step_failed p pg e :
  failed p pg ->
  failed p (fst (step pg e)) /\
  (forall q, snd (step pg e) = Some q -> q = p) /\
  injected (fst (step pg e)) = injected pg.
Proof.
  intros (Hflag & Hp & Hrejected & Hfired).
  destruct e as [|k|k|]; simpl.
  - unfold loadGoogleMapsScript. rewrite Hflag, Hp. simpl.
    split; [repeat split; assumption|].
    split; [intros q [= <-]; reflexivity | reflexivity].
  - rewrite (fire_all_fired k _ Hfired). simpl.
    split; [repeat split; assumption|]. split; [discriminate | reflexivity].
  - rewrite (fire_all_fired k _ Hfired). simpl.
    split; [repeat split; assumption|]. split; [discriminate | reflexivity].
  - split; [repeat split; assumption|]. split; [discriminate | reflexivity].
Qed.

Lemma run_failed p events pg :
  failed p pg ->
  failed p (fst (run pg events)) /\
  Forall (fun q => q = p) (snd (run pg events)) /\
  injected (fst (run pg events)) = injected pg.
Proof.
  revert pg; induction events as [|e rest IH]; intros pg Hpg; simpl.
  - split; [exact Hpg|]. split; [constructor | reflexivity].
  - destruct (step_failed p pg e Hpg) as (Hstep & Hret & Hinj).
    destruct (step pg e) as [pg' r]. simpl in Hstep, Hret, Hinj.
    destruct (IH pg' Hstep) as (Hfinal & Hall & Hinj').
    destruct (run pg' rest) as [final returned]. simpl in *.
    split; [exact Hfinal|]. split; [|congruence].
    destruct r as [q|]; [constructor; [apply Hret; reflexivity | exact Hall]
                        | exact Hall].
Qed.

(** X21: a load that failed is never tried again. After the first call
    appended the script and the script reported an error, whatever
    happens next the flag stays down, no further script is appended, and
    every call returns the same promise, which is rejected. *)
Theorem failed_load_never_retried (events : list event) :
  let start := fst (run (initial false) [ Call; ScriptFailed 0 ]) in
  let final := fst (run start events) in
  isScriptLoaded final = false /\
  List.length (injected final) = 1%nat /\
  Forall (fun returned => returned = 0%nat) (snd (run start events)) /\
  nth_error (promises final) 0 = Some Rejected.
Proof.
  intros start final.
  assert (Hstart : failed 0 start).
  { unfold failed, start. simpl. repeat split; try reflexivity.
    repeat constructor. }
  destruct (run_failed 0 events start Hstart)
    as ((Hflag & _ & Hrejected & _) & Hall & Hinj).
  fold final in Hflag, Hrejected, Hinj.
  split; [exact Hflag|]. split; [rewrite Hinj; reflexivity|].
  split; [exact Hall | exact Hrejected].
Qed.

(** X22: when a maps script element is already in the document, the
    loader never appends one, and its first call sets the flag and
    returns a promise that is resolved. *)
Theorem existing_script_never_injects (events : list event) :
  injected (fst (run (initial true) events)) = [] /\
  (let first := loadGoogleMapsScript (initial true) in
   isScriptLoaded (fst first) = true /\
   nth_error (promises (fst first)) (snd first) = Some Resolved).
Proof.
  split; [|split; reflexivity].
  assert (Hgen : forall pg,
             foreign_script pg = true -> injected pg = [] ->
             injected (fst (run pg events)) = []).
  { induction events as [|e rest IH]; intros pg Hforeign Hempty; simpl;
      [exact Hempty|].
    assert (Hstep : foreign_script (fst (step pg e)) = true /\
                    injected (fst (step pg e)) = []).
    { destruct e as [|k|k|]; simpl.
      - unfold loadGoogleMapsScript, existingScript.
        rewrite Hempty, Hforeign.
        destruct (isScriptLoaded pg); simpl; [auto|].
        destruct (scriptLoadPromise pg); simpl; auto.
      - rewrite Hempty, fire_nil. simpl. auto.
      - rewrite Hempty, fire_nil. simpl. auto.
      - auto. }
    destruct (step pg e) as [pg' r]. simpl in Hstep.
    destruct Hstep as [Hf He]. specialize (IH pg' Hf He).
    destruct (run pg' rest). exact IH. }
  apply Hgen; reflexivity.
Qed.

(** What the flag, the cached promise and the appended script say about
    each other in every page of a run. *)
Let coherent (pg : Page) : Prop :=
  (List.length (injected pg) <= 1)%nat /\
  (scriptLoadPromise pg = None ->
   injected pg = [] /\ isScriptLoaded pg = false) /\
  (forall p,
      scriptLoadPromise pg = Some p ->
      (isScriptLoaded pg = true -> nth_error (promises pg) p = Some Resolved) /\
      (forall s,
          In s (injected pg) ->
          settles s = p /\
          (fired s = false ->
           nth_error (promises pg) p = Some Pending /\
           isScriptLoaded pg = false))).

Lemma nth_error_snoc {A} (xs : list A) (x : A) :
  nth_error (xs ++ [x]) (List.length xs) = Some x.
Proof.
  rewrite nth_error_app2 by apply Nat.le_refl.
  rewrite Nat.sub_diag. reflexivity.
Qed.

Lemma nth_error_keep {A} (xs : list A) (x y : A) (n : nat) :
  nth_error xs n = Some y -> nth_error (xs ++ [x]) n = Some y.
Proof.
  intros H. rewrite nth_error_app1; [exact H|].
  apply nth_error_Some. congruence.
Qed.

Lemma call_coherent pg :
  coherent pg -> coherent (fst (loadGoogleMapsScript pg)).
Proof.
  intros (Hone & Hnone & Hsome). unfold loadGoogleMapsScript.
  destruct (isScriptLoaded pg) eqn:Hflag.
  - split; [exact Hone|]. split; simpl.
    + intros Hp. destruct (Hnone Hp) as [_ Hfalse]. congruence.
    + intros p Hp. destruct (Hsome p Hp) as [Hresolved Hscripts].
      split.
      * intros _. apply nth_error_keep, Hresolved. reflexivity.
      * intros s Hs. destruct (Hscripts s Hs) as [Hsettles Hunfired].
        split; [exact Hsettles|]. intros Hf.
        destruct (Hunfired Hf) as [_ Hfalse]. congruence.
  - destruct (scriptLoadPromise pg) as [p|] eqn:Hp.
    + unfold coherent. simpl. rewrite Hflag, Hp.
      split; [exact Hone|]. split; [discriminate|]. exact Hsome.
    + destruct (Hnone eq_refl) as [Hempty _].
      unfold existingScript. rewrite Hempty.
      destruct (foreign_script pg); unfold coherent; simpl.
      * rewrite ?Hempty. split; [simpl; auto|]. split; [discriminate|].
        intros p [= <-]. split; [intros _; apply nth_error_snoc|].
        intros s [].
      * rewrite ?Hempty. split; [simpl; auto|]. split; [discriminate|].
        intros p [= <-]. split; [discriminate|].
        intros s [<- | []]. simpl. split; [reflexivity|].
        intros _. split; [apply nth_error_snoc | reflexivity].
Qed.

Lemma fire_coherent pg k p scripts (to : promise_state) (flag : bool) :
  coherent pg ->
  fire k (injected pg) = Some (p, scripts) ->
  (to = Resolved /\ flag = true) \/ (to = Rejected /\ flag = false) ->
  coherent {| isScriptLoaded := flag;
              scriptLoadPromise := scriptLoadPromise pg;
              promises := settle p to (promises pg);
              injected := scripts;
              foreign_script := foreign_script pg |}.
Proof.
  intros (Hone & Hnone & Hsome) Hfire Hto.
  destruct (injected pg) as [|s [|s' rest]] eqn:Hinj;
    [rewrite fire_nil in Hfire; discriminate | | simpl in Hone; lia].
  destruct k as [|k]; simpl in Hfire;
    [|rewrite fire_nil in Hfire; discriminate].
  destruct (fired s) eqn:Hf; [discriminate|].
  injection Hfire as <- <-.
  destruct (scriptLoadPromise pg) as [q|] eqn:Hq;
    [|destruct (Hnone eq_refl) as [Hempty _]; discriminate].
  destruct (Hsome q eq_refl) as [_ Hscripts].
  destruct (Hscripts s (or_introl eq_refl)) as [Hsettles Hunfired].
  destruct (Hunfired Hf) as [Hpending _]. rewrite Hsettles.
  unfold coherent. simpl. split; [auto|]. split; [discriminate|].
  intros p [= <-]. split.
  - intros Hflag. destruct Hto as [[-> _] | [_ ->]]; [|discriminate].
    apply settle_pending, Hpending.
  - intros s0 [<- | []]. simpl. split; [reflexivity | discriminate].
Qed.

Lemma step_coherent pg e : coherent pg -> coherent (fst (step pg e)).
Proof.
  intros Hpg. destruct e as [|k|k|]; simpl.
  - pose proof (call_coherent pg Hpg) as H.
    destruct (loadGoogleMapsScript pg). exact H.
  - destruct (fire k (injected pg)) as [[p scripts]|] eqn:E; [|exact Hpg].
    apply (fire_coherent pg k p scripts Resolved true Hpg E). left; auto.
  - destruct (fire k (injected pg)) as [[p scripts]|] eqn:E; [|exact Hpg].
    destruct Hpg as (Hone & Hnone & Hsome).
    assert (Hflag : isScriptLoaded pg = false).
    { destruct (fire_fired _ _ _ _ E) as (s & Hin & Hf & _).
      destruct (scriptLoadPromise pg) as [q|] eqn:Hq.
      - destruct (Hsome q eq_refl) as [_ Hscripts].
        destruct (Hscripts s Hin) as [_ Hunfired]. apply (Hunfired Hf).
      - apply (Hnone eq_refl). }
    rewrite Hflag.
    apply (fire_coherent pg k p scripts Rejected false
             (conj Hone (conj Hnone Hsome)) E).
    right; auto.
  - destruct Hpg as (Hone & Hnone & Hsome). unfold coherent. simpl.
    split; [exact Hone|]. split; assumption.
Qed.

Lemma run_coherent events pg : coherent pg -> coherent (fst (run pg events)).
Proof.
  revert pg; induction events as [|e rest IH]; intros pg Hpg; simpl;
    [exact Hpg|].
  pose proof (step_coherent pg e Hpg) as Hstep.
  destruct (step pg e) as [pg' r]. specialize (IH pg' Hstep).
  destruct (run pg' rest). exact IH.
Qed.

(** X23: the flag and the cached promise agree. In every page of a run,
    if the flag is set then a promise is cached and it is resolved, and
    as long as the appended script has fired neither of its events the
    flag is down and the cached promise is pending. *)
Theorem flag_means_resolved (foreign : bool) (events : list event) :
  let final := fst (run (initial foreign) events) in
  (isScriptLoaded final = true ->
     exists p,
       scriptLoadPromise final = Some p /\
       nth_error (promises final) p = Some Resolved) /\
  (forall s,
      In s (injected final) -> fired s = false ->
      isScriptLoaded final = false /\
      scriptLoadPromise final = Some (settles s) /\
      nth_error (promises final) (settles s) = Some Pending).
Proof.
  intros final.
  assert (Hinit : coherent (initial foreign)).
  { unfold coherent. simpl. split; [auto|]. split; [auto|]. discriminate. }
  destruct (run_coherent events _ Hinit) as (Hone & Hnone & Hsome).
  fold final in Hone, Hnone, Hsome.
  split.
  - intros Hflag. destruct (scriptLoadPromise final) as [p|] eqn:Hp.
    + exists p. split; [reflexivity|]. apply (Hsome p eq_refl), Hflag.
    + destruct (Hnone eq_refl) as [_ Hfalse]. congruence.
  - intros s Hin Hf. destruct (scriptLoadPromise final) as [p|] eqn:Hp.
    + destruct (Hsome p eq_refl) as [_ Hscripts].
      destruct (Hscripts s Hin) as [Hsettles Hunfired].
      destruct (Hunfired Hf) as [Hpending Hflag]. rewrite Hsettles.
      split; [exact Hflag|]. split; [reflexivity | exact Hpending].
    + destruct (Hnone eq_refl) as [Hempty _]. rewrite Hempty in Hin.
      destruct Hin.
Qed.

End LoaderStates.

(** ** More on the place that was picked *)

Section PlaceEdges.
Import JS AddressAutocomplete.

Let street_after (street : jsstring) (names : list jsstring) : jsstring :=
  fold_left
    (fun street name =>
       if str_truthy street then street ++ lit " " ++ name else name)
    names street.

(** X24: the street for every place, empty names included. The callback
    is called exactly when the place has address components; the street
    it receives is the names of the route and street-number components
    joined by spaces, counted from the first name that is not empty, and
    when that gives nothing it is the formatted address, or the empty
    string without one. *)
Theorem handlePlaceChanged_street_exact (place : Place) :
  (handlePlaceChanged place = None <-> address_components place = None) /\
  (forall components,
      address_components place = Some components ->
      exists address,
        handlePlaceChanged place = Some address /\
        street address =
          match join (lit " ")
                  (Text.drop_leading_empty (street_names components)) with
          | [] => match formatted_address place with
                  | Some formatted => formatted
                  | None => lit ""
                  end
          | joined => joined
          end).
Proof.
  split.
  - unfold handlePlaceChanged.
    destruct (address_components place); split; congruence.
  - intros components Hcomponents. unfold handlePlaceChanged.
    rewrite Hcomponents, fold_visit. cbn [street city zip].
    change (fold_left _ (street_names components) (lit ""))
      with (street_after [] (street_names components)).
    unfold street_after. rewrite street_after_drop, !str_or_empty_default.
    eexists. split; [reflexivity|]. cbn [street].
    destruct (join (lit " ") (Text.drop_leading_empty (street_names components)))
      as [|c joined].
    + destruct (formatted_address place) as [[|c formatted]|]; reflexivity.
    + destruct (formatted_address place); reflexivity.
Qed.

End PlaceEdges.

(** ** From the picked place to the order *)

Section PlaceToOrder.
Import JS Net Queries OrderForm CartScreen.
Context {R : Runtime}.
Variable env : Env.
Variable net : Request OrderCreate -> fetch_result json.

(** X25: the address that the widget hands over is the address that is
    ordered to. After [handleAddressSelect] the contact fields and the
    cart are as before, and the request that [handleSubmit] then sends
    ships to that street, city and zip, with the province code that
    [getProvinceCode] gives for that city. *)
Theorem selected_address_is_ordered st address item rest session log :
  cartItems st = item :: rest ->
  createSession env = Returned session ->
  let st' := handleAddressSelect address st in
  cartItems st' = cartItems st /\
  FormData.firstName (formData st') = FormData.firstName (formData st) /\
  FormData.lastName (formData st') = FormData.lastName (formData st) /\
  FormData.phone (formData st') = FormData.phone (formData st) /\
  FormData.email (formData st') = FormData.email (formData st) /\
  exists req,
    snd (handleSubmit env net st' log) = log ++ [req] /\
    let shipping := shippingAddress (order (body req)) in
    Address.address1 shipping = AddressAutocomplete.street address /\
    Address.city shipping = AddressAutocomplete.city address /\
    Address.zip shipping = AddressAutocomplete.zip address /\
    Address.provinceCode shipping
      = getProvinceCode (AddressAutocomplete.city address).
Proof.
  intros Hcart Hs st'.
  repeat (split; [reflexivity|]).
  assert (Hcart' : cartItems st' = item :: rest) by exact Hcart.
  rewrite (handleSubmit_run env net st' item rest log Hcart'). cbn [snd].
  rewrite (createOrder_run env net _ log session Hs). cbn [snd].
  eexists. split; [reflexivity|]. simpl. repeat split; reflexivity.
Qed.

End PlaceToOrder.

(** ** The single-product form *)

Section SingleProduct.
Import JS Net Queries.
Context {R : Runtime}.
Variable env : Env.
Variable net : Request OrderCreate -> fetch_result json.

(** X26: the single-product form orders what was chosen. Its
    [handleSubmit] never throws, whatever the settings and the backend,
    and ends with the submitting flag down; the fields are cleared and
    success is shown when [createOrder] returns, and the fields are kept,
    with the caught error, when it throws. With the settings present it
    sends one request, whose only line item is the chosen variant with
    quantity one; with a setting missing it sends nothing and the error
    is the configuration error. *)
Theorem single_form_orders_chosen_variant st log :
  exists st',
    fst (SingleForm.handleSubmit env net st log) = Returned st' /\
    SingleForm.isSubmitting st' = false /\
    (forall result,
        fst (createOrder env net (SingleForm.orderData_of st) log)
          = Returned result ->
        SingleForm.success_shown st' = true /\
        SingleForm.error st' = None /\
        SingleForm.formData st' = SingleForm.FormData.empty) /\
    (forall e,
        fst (createOrder env net (SingleForm.orderData_of st) log) = Threw e ->
        SingleForm.success_shown st' = false /\
        SingleForm.error st' = Some (OrderForm.Caught e) /\
        SingleForm.formData st' = SingleForm.formData st) /\
    (forall session,
        createSession env = Returned session ->
        exists req,
          snd (SingleForm.handleSubmit env net st log) = log ++ [req] /\
          lineItems (order (body req))
            = [ {| LineItem.variantId :=
                     Some (SingleForm.FormData.variant (SingleForm.formData st));
                   LineItem.quantity := 1;
                   LineItem.requiresShipping := true |} ]) /\
    (createSession env = Threw MissingConfig ->
       snd (SingleForm.handleSubmit env net st log) = log /\
       SingleForm.error st' = Some (OrderForm.Caught MissingConfig) /\
       SingleForm.formData st' = SingleForm.formData st).
Proof.
  assert (Hrun :
            SingleForm.handleSubmit env net st log =
              (Returned
                 match fst (createOrder env net (SingleForm.orderData_of st) log)
                 with
                 | Returned _ =>
                     {| SingleForm.formData := SingleForm.FormData.empty;
                        SingleForm.isSubmitting := false;
                        SingleForm.error := None;
                        SingleForm.success_shown := true |}
                 | Threw e =>
                     {| SingleForm.formData := SingleForm.formData st;
                        SingleForm.isSubmitting := false;
                        SingleForm.error := Some (OrderForm.Caught e);
                        SingleForm.success_shown := false |}
                 end,
               snd (createOrder env net (SingleForm.orderData_of st) log))).
  { unfold SingleForm.handleSubmit, bind, try_catch, ret.
    destruct (createOrder env net (SingleForm.orderData_of st) log)
      as [[result|e] log']; reflexivity. }
  rewrite Hrun. cbn [fst snd]. eexists. split; [reflexivity|].
  split; [destruct (fst (createOrder env net (SingleForm.orderData_of st) log));
          reflexivity|].
  split; [intros result ->; repeat split; reflexivity|].
  split; [intros e ->; repeat split; reflexivity|].
  split.
  - intros session Hs.
    rewrite (createOrder_run env net _ log session Hs). cbn [snd].
    eexists. split; reflexivity.
  - intros Hs. rewrite (createOrder_unconfigured env net _ log Hs).
    cbn [fst snd]. repeat split; reflexivity.
Qed.

End SingleProduct.

Section SingleProductChoice.
Import JS Queries.
Variable products : list ShopifyProduct.

(** X27: choosing a product in the single-product form sets the product
    and clears the variant, leaving the contact and address fields as
    they were; the variants then offered are in stock and belong to a
    catalog product with the chosen id. *)
Theorem choosing_product_resets_variant (value : jsstring) (st : SingleForm.State) :
  let st' := SingleForm.handleChange (lit "product") value st in
  SingleForm.FormData.product (SingleForm.formData st') = value /\
  SingleForm.FormData.variant (SingleForm.formData st') = lit "" /\
  SingleForm.orderData_of st'
    = {| OrderInput.firstName := OrderInput.firstName (SingleForm.orderData_of st);
         OrderInput.lastName := OrderInput.lastName (SingleForm.orderData_of st);
         OrderInput.email := OrderInput.email (SingleForm.orderData_of st);
         OrderInput.phone := OrderInput.phone (SingleForm.orderData_of st);
         OrderInput.address1 := OrderInput.address1 (SingleForm.orderData_of st);
         OrderInput.city := OrderInput.city (SingleForm.orderData_of st);
         OrderInput.zip := OrderInput.zip (SingleForm.orderData_of st);
         OrderInput.productId := Some value;
         OrderInput.variantId := Some (lit "");
         OrderInput.lineItems := None |} /\
  forall variant,
    In variant (SingleForm.availableVariants products st') ->
    (0 < Variant.inventoryQuantity variant)%Z /\
    exists product,
      In product products /\ Product.id product = value /\
      In variant (map node (edges (Product.variants product))).
Proof.
  intros st'. split; [reflexivity|]. split; [reflexivity|].
  split; [reflexivity|].
  intros variant Hin. unfold SingleForm.availableVariants in Hin.
  destruct (SingleForm.selectedProduct products st') as [selected|] eqn:Hsel;
    [|destruct Hin].
  unfold SingleForm.selectedProduct in Hsel. apply find_some in Hsel.
  destruct Hsel as [Hproduct Hid]. apply str_eqb_eq in Hid.
  apply in_map_iff in Hin. destruct Hin as (row & <- & Hrow).
  apply filter_In in Hrow. destruct Hrow as [Hrow Hstock].
  unfold CartScreen.in_stock in Hstock. rewrite Z.gtb_ltb in Hstock.
  split; [apply Z.ltb_lt, Hstock|].
  exists selected. split; [exact Hproduct|]. split; [exact Hid|].
  apply in_map, Hrow.
Qed.

End SingleProductChoice.

(** ** Instances *)

Lemma missing_config_sends_nothing_witness :
  @Queries.createOrder JS.latin1_runtime Cases.no_token
    (Sample.always (Sample.answer true 200 Sample.created_response))
    (Sample.contact (JS.lit "Ana") (JS.lit "Ruiz") (JS.lit "")) []
  = (JS.Threw JS.MissingConfig, []).
Proof.
  exact (proj2 (@missing_config_sends_nothing JS.latin1_runtime Cases.no_token
                  eq_refl) _ _ _).
Defined.

Lemma configured_sends_one_request_witness :
  exists req,
    snd (Queries.getProducts Sample.configured Cases.unreachable []) = [req] /\
    Net.url req = JS.lit "https://shop.example/admin/api/graphql.json".
Proof.
  destruct (proj1 (@configured_sends_one_request JS.latin1_runtime
                     Sample.configured _ _ eq_refl ltac:(discriminate)
                     eq_refl ltac:(discriminate))
              Cases.unreachable [])
    as (req & Hlog & Hurl & _).
  exists req. split; [exact Hlog | exact Hurl].
Defined.

Lemma getProducts_failure_order_witness :
  fst (Queries.getProducts Sample.configured
         (Sample.always (Sample.answer true 200 Cases.catalog_with_errors)) [])
  = JS.Threw JS.GraphQLFailed.
Proof.
  destruct (getProducts_failure_order Sample.configured _ [] eq_refl)
    as (_ & _ & _ & Herrors & _).
  exact (Herrors (Sample.answer true 200 Cases.catalog_with_errors) _
           eq_refl eq_refl eq_refl).
Defined.

Lemma getProducts_keeps_fields_and_order_witness :
  exists ps,
    fst (Queries.getProducts Sample.configured
           (Sample.always (Sample.answer true 200 Sample.catalog_body)) [])
      = JS.Returned ps /\
    map Queries.Product.title ps = [ JS.lit "Tee"; JS.lit "Poster" ].
Proof.
  destruct (getProducts_keeps_fields_and_order Sample.configured _ []
              (Sample.answer true 200 Sample.catalog_body) _ _
              eq_refl eq_refl eq_refl eq_refl eq_refl)
    as (ps & Hret & Hall).
  exists ps. split; [exact Hret|].
  inversion Hall as [|e1 p1 es1 ps1 (_ & H1 & _) Hrest]; subst.
  inversion Hrest as [|e2 p2 es2 ps2 (_ & H2 & _) Hnil]; subst.
  inversion Hnil; subst. simpl. rewrite H1, H2. reflexivity.
Defined.

Lemma createOrder_request_shape_witness :
  exists req,
    snd (@Queries.createOrder JS.latin1_runtime Sample.configured
           Cases.unreachable
           (Sample.contact (JS.lit "Ana") (JS.lit "Ruiz") (JS.lit "")) [])
      = [req] /\
    Queries.billingAddress (Queries.order (Net.body req))
      = Queries.shippingAddress (Queries.order (Net.body req)).
Proof.
  destruct (@createOrder_request_shape JS.latin1_runtime Sample.configured
              Cases.unreachable
              (Sample.contact (JS.lit "Ana") (JS.lit "Ruiz") (JS.lit ""))
              [] _ eq_refl)
    as (req & Hlog & Hsame & _).
  exists req. split; [exact Hlog | exact Hsame].
Defined.

Lemma getProvinceCode_idempotent_witness :
  @Queries.getProvinceCode JS.latin1_runtime
    (@Queries.getProvinceCode JS.latin1_runtime (JS.lit "la coruna"))
  = JS.lit "C".
Proof.
  rewrite (@getProvinceCode_idempotent JS.latin1_runtime latin1_runtime_unicode).
  vm_compute. reflexivity.
Defined.

Lemma createOrder_body_not_object_witness :
  fst (@Queries.createOrder JS.latin1_runtime Sample.configured
         (Sample.always (Sample.answer true 200 JS.JNull))
         (Sample.contact (JS.lit "Ana") (JS.lit "Ruiz") (JS.lit "")) [])
  = JS.Threw JS.TypeError.
Proof.
  exact (proj1 (@createOrder_body_not_object JS.latin1_runtime
                  Sample.configured
                  (Sample.always (Sample.answer true 200 JS.JNull))
                  (Sample.contact (JS.lit "Ana") (JS.lit "Ruiz") (JS.lit ""))
                  [] _ _ _ eq_refl eq_refl eq_refl) eq_refl).
Defined.

Lemma createOrder_success_sound_witness :
  exists orderCreate,
    JS.prop orderCreate (JS.lit "order") = Some Sample.created_order /\
    JS.truthy (Some Sample.created_order) = true.
Proof.
  destruct (@createOrder_success_sound JS.latin1_runtime Sample.configured
              (Sample.always (Sample.answer true 200 Sample.created_response))
              (Sample.contact (JS.lit "Ana") (JS.lit "Ruiz") (JS.lit ""))
              [] Sample.created_order eq_refl)
    as (session & response & data & orderCreate
        & _ & _ & _ & _ & Horder & Htruthy & _).
  exists orderCreate. split; [exact Horder | exact Htruthy].
Defined.

(** The backend refuses the order with a user error, and the form shows
    success all the same. *)
Lemma handleSubmit_success_on_any_result_witness :
  fst (@Queries.createOrder JS.latin1_runtime Sample.configured
         (Sample.always (Sample.answer true 200 Sample.rejected_response))
         (OrderForm.orderData_of Cases.two_tees) [])
    = JS.Returned (Queries.Failure (JS.JArr [ Sample.user_error ])) /\
  exists st',
    fst (@OrderForm.handleSubmit JS.latin1_runtime Sample.configured
           (Sample.always (Sample.answer true 200 Sample.rejected_response))
           Cases.two_tees []) = JS.Returned st' /\
    OrderForm.success_shown st' = true /\
    OrderForm.cartItems st' = [].
Proof.
  split; [reflexivity|].
  destruct (@handleSubmit_success_on_any_result JS.latin1_runtime
              Sample.configured
              (Sample.always (Sample.answer true 200 Sample.rejected_response))
              Cases.two_tees _ _ [] _ eq_refl eq_refl)
    as (st' & Hret & Hsuccess & _ & Hcart & _).
  exists st'. split; [exact Hret|]. split; [exact Hsuccess | exact Hcart].
Defined.

Lemma handleSubmit_keeps_cart_on_throw_witness :
  exists st',
    fst (@OrderForm.handleSubmit JS.latin1_runtime Sample.configured
           Cases.unreachable Cases.two_tees []) = JS.Returned st' /\
    OrderForm.error st' = Some (OrderForm.Caught JS.FetchFailed) /\
    OrderForm.cartItems st' = OrderForm.cartItems Cases.two_tees.
Proof.
  destruct (@handleSubmit_keeps_cart_on_throw JS.latin1_runtime
              Sample.configured Cases.unreachable
              Cases.two_tees _ _ [] _ eq_refl eq_refl)
    as (st' & Hret & Herror & _ & Hcart & _).
  exists st'. split; [exact Hret|]. split; [exact Herror | exact Hcart].
Defined.

Lemma addToCart_accepted_witness :
  OrderForm.currentQuantity (Queries.Variant.id Sample.tee_variant)
    (OrderForm.addToCart Sample.tee Sample.tee_variant 1 Cases.two_tees) = 3%Z.
Proof.
  rewrite (proj1 (addToCart_accepted Sample.tee Sample.tee_variant 1%Z
                    Cases.two_tees ltac:(vm_compute; discriminate))).
  reflexivity.
Defined.

Lemma updateQuantity_accepted_witness :
  OrderForm.currentQuantity (Queries.Variant.id Sample.tee_variant)
    (OrderForm.updateQuantity (Queries.Variant.id Sample.tee_variant) 3
       Cases.two_tees) = 3%Z.
Proof.
  exact (proj1 (updateQuantity_accepted (Queries.Variant.id Sample.tee_variant)
                  3%Z Cases.two_tees _ eq_refl eq_refl
                  ltac:(vm_compute; discriminate))).
Defined.

Lemma absent_variant_untouched_witness :
  OrderForm.cartItems
    (OrderForm.updateQuantity (JS.lit "gid://shopify/ProductVariant/9") 5
       Cases.two_tees)
  = OrderForm.cartItems Cases.two_tees.
Proof.
  exact (proj1 (absent_variant_untouched
                  (JS.lit "gid://shopify/ProductVariant/9") Cases.two_tees
                  eq_refl) 5%Z).
Defined.

Lemma cart_lines_stay_distinct_witness :
  NoDup (map OrderForm.CartItem.variantId
           (OrderForm.cartItems
              (OrderForm.addToCart Sample.tee Sample.tee_variant 1
                 Cases.two_tees))).
Proof.
  apply (proj1 (cart_lines_stay_distinct Cases.two_tees
                  ltac:(repeat constructor; intros []))).
Defined.

Lemma picker_rows_in_stock_witness :
  In Sample.tee
    (CartScreen.availableProducts (fun s => s) [ Sample.tee; Sample.poster ]
       (JS.lit "ee")) /\
  CartScreen.shown_variants Sample.tee <> [].
Proof.
  assert (Hin : In Sample.tee
                  (CartScreen.availableProducts (fun s => s)
                     [ Sample.tee; Sample.poster ] (JS.lit "ee")))
    by (left; reflexivity).
  split; [exact Hin|].
  exact (proj1 (proj2 (picker_rows_in_stock (fun s => s)
                         [ Sample.tee; Sample.poster ] (JS.lit "ee")
                         Sample.tee Hin))).
Defined.

Lemma enabled_add_is_accepted_witness :
  CartScreen.remainingStock Sample.tee_variant Cases.two_tees = 1%Z /\
  OrderForm.error
    (OrderForm.addToCart Sample.tee Sample.tee_variant 1 Cases.two_tees) = None.
Proof.
  split; [reflexivity|].
  assert (Hst : OrderForm.reachable [ Sample.tee ] Cases.two_tees).
  { apply OrderForm.reach_add;
      [apply OrderForm.reach_initial | exact sample_offered | reflexivity]. }
  destruct (enabled_add_is_accepted [ Sample.tee ] sample_catalog_unique
              Cases.two_tees Sample.tee
              {| Queries.node := Sample.tee_variant |} Hst
              (or_introl eq_refl) (or_introl eq_refl)) as [_ Henabled].
  exact (proj1 (Henabled eq_refl)).
Defined.

Lemma cart_total_counts_lines_witness :
  (Z.of_nat (List.length (OrderForm.cartItems Cases.two_tees))
   <= OrderForm.getTotalItems Cases.two_tees)%Z.
Proof.
  assert (Hst : OrderForm.reachable [ Sample.tee ] Cases.two_tees).
  { apply OrderForm.reach_add;
      [apply OrderForm.reach_initial | exact sample_offered | reflexivity]. }
  exact (proj1 (cart_total_counts_lines [ Sample.tee ] sample_catalog_unique
                  Cases.two_tees Hst)).
Defined.

(** An empty route name adds no separator: the street is the number. *)
Lemma handlePlaceChanged_street_exact_witness :
  exists address,
    AddressAutocomplete.handlePlaceChanged Cases.unnamed_route = Some address /\
    AddressAutocomplete.street address = JS.lit "5".
Proof.
  destruct (proj2 (handlePlaceChanged_street_exact Cases.unnamed_route)
              _ eq_refl) as (address & Hcall & Hstreet).
  exists address. split; [exact Hcall | exact Hstreet].
Defined.

Lemma selected_address_is_ordered_witness :
  exists req,
    snd (@OrderForm.handleSubmit JS.latin1_runtime Sample.configured
           Cases.unreachable
           (CartScreen.handleAddressSelect
              {| AddressAutocomplete.street := JS.lit "12 Calle Mayor";
                 AddressAutocomplete.city := JS.lit "Madrid";
                 AddressAutocomplete.zip := JS.lit "28013" |}
              Cases.two_tees) []) = [req] /\
    Queries.Address.provinceCode
      (Queries.shippingAddress (Queries.order (Net.body req))) = JS.lit "M".
Proof.
  destruct (@selected_address_is_ordered JS.latin1_runtime Sample.configured
              Cases.unreachable Cases.two_tees
              {| AddressAutocomplete.street := JS.lit "12 Calle Mayor";
                 AddressAutocomplete.city := JS.lit "Madrid";
                 AddressAutocomplete.zip := JS.lit "28013" |}
              _ _ _ [] eq_refl eq_refl)
    as (_ & _ & _ & _ & _ & req & Hlog & _ & _ & _ & Hprovince).
  exists req. split; [exact Hlog|]. rewrite Hprovince.
  vm_compute. reflexivity.
Defined.

Lemma single_form_orders_chosen_variant_witness :
  (exists req,
      snd (@SingleForm.handleSubmit JS.latin1_runtime Sample.configured
             (Sample.always (Sample.answer true 200 Sample.created_response))
             Cases.tee_chosen []) = [req] /\
      map Queries.LineItem.variantId
        (Queries.lineItems (Queries.order (Net.body req)))
        = [ Some (Queries.Variant.id Sample.tee_variant) ]) /\
  exists st',
    fst (@SingleForm.handleSubmit JS.latin1_runtime Cases.no_token
           (Sample.always (Sample.answer true 200 Sample.created_response))
           Cases.tee_chosen []) = JS.Returned st' /\
    SingleForm.error st' = Some (OrderForm.Caught JS.MissingConfig) /\
    SingleForm.formData st' = SingleForm.formData Cases.tee_chosen.
Proof.
  split.
  - destruct (@single_form_orders_chosen_variant JS.latin1_runtime
                Sample.configured
                (Sample.always (Sample.answer true 200 Sample.created_response))
                Cases.tee_chosen [])
      as (st' & _ & _ & _ & _ & Hsent & _).
    destruct (Hsent _ eq_refl) as (req & Hlog & Hitems).
    exists req. split; [exact Hlog|]. rewrite Hitems. reflexivity.
  - destruct (@single_form_orders_chosen_variant JS.latin1_runtime
                Cases.no_token
                (Sample.always (Sample.answer true 200 Sample.created_response))
                Cases.tee_chosen [])
      as (st' & Hret & _ & _ & _ & _ & Hmissing).
    exists st'. split; [exact Hret|].
    destruct (Hmissing eq_refl) as (_ & Herror & Hform).
    split; [exact Herror | exact Hform].
Defined.
